(** * ACNH recipe checklist (app.js): a shallow embedding and its properties

    The browser page keeps four module-level variables ([allRecipes],
    [currentCategory], [searchText], [ownedIds]), one entry of
    [localStorage] and two DOM nodes it writes to ([stats], [recipeGrid]).
    The embedding threads them through an explicit [state] record; a
    function that can throw returns an [outcome].

    JavaScript strings are sequences of UTF-16 code units; they are
    modelled as [list N].  Literals of the source are written
    [js "..."], which decodes the UTF-8 bytes of the Rocq literal. *)

From Stdlib Require Import String Ascii ZArith NArith List Bool Lia.
From Stdlib Require Import DecimalN DecimalFacts Sorted.
From stdpp Require Import gmap list.
Import ListNotations.

Local Open Scope N_scope.

(** ** JavaScript strings *)

Abbreviation jstring := (list N).

(** Code units of the UTF-8 byte sequence [bs] (one to four bytes per code
    point; a code point above U+FFFF becomes a surrogate pair). *)
Fixpoint utf8_decode (bs : list N) : jstring :=
  match bs with
  | [] => []
  | b :: rest =>
      if b <? 0x80 then b :: utf8_decode rest
      else if b <? 0xE0 then
        match rest with
        | b1 :: r => ((b mod 32) * 64 + b1 mod 64) :: utf8_decode r
        | _ => []
        end
      else if b <? 0xF0 then
        match rest with
        | b1 :: b2 :: r =>
            ((b mod 16) * 4096 + (b1 mod 64) * 64 + b2 mod 64) :: utf8_decode r
        | _ => []
        end
      else
        match rest with
        | b1 :: b2 :: b3 :: r =>
            let cp := (b mod 8) * 262144 + (b1 mod 64) * 4096
                      + (b2 mod 64) * 64 + b3 mod 64 in
            let v := cp - 0x10000 in
            (0xD800 + v / 1024) :: (0xDC00 + v mod 1024) :: utf8_decode r
        | _ => []
        end
  end.

Definition js (s : string) : jstring :=
  utf8_decode (List.map N_of_ascii (list_ascii_of_string s)).

Definition jstring_eqb (a b : jstring) : bool :=
  bool_decide (a = b).

(** [String.prototype.startsWith] and [String.prototype.includes]. *)
Fixpoint startsWith (s k : jstring) {struct k} : bool :=
  match k with
  | [] => true
  | c :: k' =>
      match s with
      | [] => false
      | d :: s' => (c =? d) && startsWith s' k'
      end
  end.

Fixpoint includes (s k : jstring) : bool :=
  startsWith s k ||
  match s with
  | [] => false
  | _ :: s' => includes s' k
  end.

(** [String.prototype.trim] removes WhiteSpace and LineTerminator code
    points (ECMA-262, table of white space code points and category Zs)
    from both ends. *)
Definition is_js_space (c : N) : bool :=
  (c =? 0x09) || (c =? 0x0A) || (c =? 0x0B) || (c =? 0x0C) || (c =? 0x0D)
  || (c =? 0x20) || (c =? 0xA0) || (c =? 0x1680)
  || ((0x2000 <=? c) && (c <=? 0x200A))
  || (c =? 0x2028) || (c =? 0x2029) || (c =? 0x202F) || (c =? 0x205F)
  || (c =? 0x3000) || (c =? 0xFEFF).

Fixpoint trimStart (s : jstring) : jstring :=
  match s with
  | [] => []
  | c :: s' => if is_js_space c then trimStart s' else s
  end.

Definition trim (s : jstring) : jstring :=
  rev (trimStart (rev (trimStart s))).

(** Lowercasing of the letters A-Z only.  It agrees with
    [String.prototype.toLowerCase] on strings of ASCII characters and
    Hangul syllables; the development is parametric in the lowercasing
    function and uses this one at concrete inputs. *)
Definition ascii_toLowerCase (s : jstring) : jstring :=
  List.map (fun c => if (65 <=? c) && (c <=? 90) then c + 32 else c) s.

(** Decimal digits of a natural number, most significant first. *)
Fixpoint uint_codes (u : Decimal.uint) : jstring :=
  match u with
  | Decimal.Nil => []
  | Decimal.D0 u' => 48 :: uint_codes u'
  | Decimal.D1 u' => 49 :: uint_codes u'
  | Decimal.D2 u' => 50 :: uint_codes u'
  | Decimal.D3 u' => 51 :: uint_codes u'
  | Decimal.D4 u' => 52 :: uint_codes u'
  | Decimal.D5 u' => 53 :: uint_codes u'
  | Decimal.D6 u' => 54 :: uint_codes u'
  | Decimal.D7 u' => 55 :: uint_codes u'
  | Decimal.D8 u' => 56 :: uint_codes u'
  | Decimal.D9 u' => 57 :: uint_codes u'
  end.

Definition decimal (n : N) : jstring := uint_codes (N.to_uint n).

(** ** JavaScript values

    The scalar values a field of a recipe or an id can hold.  A property
    that is absent from an object reads as [VUndefined].

    The Numbers of the model are the safe integers
    ([Number.isSafeInteger]: the integers of magnitude at most 2^53 - 1).
    On them a double holds the integer itself, [JSON.parse] reads a
    literal without rounding and [Number::toString] writes all the
    digits.  [VNum z safe] is the Number with the value [z]; every other
    Number (a fraction, a magnitude from 2^53 on, where literals are
    rounded and large values are written with an exponent, [NaN], the
    infinities) is not a value of the model. *)
Definition MAX_SAFE_INTEGER : Z := 9007199254740991.

Definition is_safe_integer (z : Z) : bool :=
  ((- MAX_SAFE_INTEGER <=? z) && (z <=? MAX_SAFE_INTEGER))%Z.

Inductive value : Type :=
  | VUndefined
  | VNull
  | VBool (b : bool)
  | VNum (z : Z) (safe : Is_true (is_safe_integer z))
  | VStr (s : jstring).

#[global] Instance value_eq_dec : EqDecision value.
Proof.
  intros a b. unfold Decision.
  destruct a as [| |x|x p|x], b as [| |y|y q|y];
    try (right; discriminate); try (left; reflexivity).
  - destruct (decide (x = y)) as [->|n]; [left; reflexivity|right; congruence].
  - destruct (decide (x = y)) as [e|n];
      [left; destruct e; f_equal; apply proof_irrel
      |right; intros [= e]; exact (n e)].
  - destruct (decide (x = y)) as [->|n]; [left; reflexivity|right; congruence].
Defined.

(** Strict equality [===]; on these values it coincides with the
    SameValueZero comparison used by [Set]. *)
Definition strict_eq (a b : value) : bool :=
  match a, b with
  | VUndefined, VUndefined => true
  | VNull, VNull => true
  | VBool x, VBool y => Bool.eqb x y
  | VNum x _, VNum y _ => (x =? y)%Z
  | VStr x, VStr y => jstring_eqb x y
  | _, _ => false
  end.

(** ToBoolean. *)
Definition truthy (v : value) : bool :=
  match v with
  | VUndefined | VNull => false
  | VBool b => b
  | VNum z _ => negb (z =? 0)%Z
  | VStr s => match s with [] => false | _ => true end
  end.

(** The operator [a || b]. *)
Definition or_else (a b : value) : value :=
  if truthy a then a else b.

(** [Number::toString] of a safe integer: a minus sign for a negative one,
    and all the digits.  It is applied to the value of a [VNum] and to the
    length of an array, which is below 2^32. *)
Definition Number_toString (z : Z) : jstring :=
  if (z <? 0)%Z then 45 :: decimal (Z.to_N (- z)) else decimal (Z.to_N z).

(** ToString, as applied by a template literal. *)
Definition ToString (v : value) : jstring :=
  match v with
  | VUndefined => js "undefined"
  | VNull => js "null"
  | VBool true => js "true"
  | VBool false => js "false"
  | VNum z _ => Number_toString z
  | VStr s => s
  end.

(** ** Exceptions *)

Inductive error : Type :=
  | SyntaxError
  | TypeError
  | Error (message : jstring).

Inductive outcome (A : Type) : Type :=
  | Ok (a : A)
  | Throw (e : error).
Arguments Ok {A} a.
Arguments Throw {A} e.

(** ** [Set]: insertion-ordered, without repetition *)

Abbreviation jsset := (list value).

Definition Set_has (s : jsset) (v : value) : bool :=
  existsb (strict_eq v) s.

Definition Set_add (s : jsset) (v : value) : jsset :=
  if Set_has s v then s else s ++ [v].

Definition Set_delete (s : jsset) (v : value) : jsset :=
  List.filter (fun x => negb (strict_eq v x)) s.

(** [new Set(iterable)] adds the items in iteration order. *)
Definition Set_from (items : list value) : jsset :=
  fold_left Set_add items [].

(** [[...s]] *)
Definition Set_values (s : jsset) : list value := s.

(** ** JSON

    [JSON.stringify] of an array of scalar values, and [JSON.parse] of
    texts that denote a scalar or an array of scalars. *)

Definition hex_digit (d : N) : N :=
  if d <? 10 then 48 + d else 87 + d.

(** [\uXXXX] with four lowercase hexadecimal digits. *)
Definition unicode_escape (c : N) : jstring :=
  [92; 117; hex_digit (c / 4096 mod 16); hex_digit (c / 256 mod 16);
   hex_digit (c / 16 mod 16); hex_digit (c mod 16)].

Definition is_high_surrogate (c : N) : bool := (0xD800 <=? c) && (c <=? 0xDBFF).
Definition is_low_surrogate (c : N) : bool := (0xDC00 <=? c) && (c <=? 0xDFFF).

(** QuoteJSONString on a code point that is not a surrogate. *)
Definition quote_code_unit (c : N) : jstring :=
  if c =? 8 then [92; 98]            (* \b *)
  else if c =? 9 then [92; 116]      (* \t *)
  else if c =? 10 then [92; 110]     (* \n *)
  else if c =? 12 then [92; 102]     (* \f *)
  else if c =? 13 then [92; 114]     (* \r *)
  else if c =? 34 then [92; 34]      (* \dquote *)
  else if c =? 92 then [92; 92]      (* \\ *)
  else if c <? 32 then unicode_escape c
  else [c].

(** A surrogate pair is copied; a lone surrogate is escaped. *)
Fixpoint quote_body (s : jstring) : jstring :=
  match s with
  | [] => []
  | c :: s' =>
      if is_high_surrogate c then
        match s' with
        | d :: s'' =>
            if is_low_surrogate d then c :: d :: quote_body s''
            else unicode_escape c ++ quote_body s'
        | [] => unicode_escape c
        end
      else if is_low_surrogate c then unicode_escape c ++ quote_body s'
      else quote_code_unit c ++ quote_body s'
  end.

Definition QuoteJSONString (s : jstring) : jstring :=
  34 :: quote_body s ++ [34].

(** SerializeJSONProperty for an element of an array: [undefined] is
    written as [null]. *)
Definition serialize (v : value) : jstring :=
  match v with
  | VUndefined | VNull => js "null"
  | VBool true => js "true"
  | VBool false => js "false"
  | VNum z _ => Number_toString z
  | VStr s => QuoteJSONString s
  end.

Fixpoint join_comma (parts : list jstring) : jstring :=
  match parts with
  | [] => []
  | [p] => p
  | p :: ps => p ++ 44 :: join_comma ps
  end.

(** [JSON.stringify(array)] *)
Definition JSON_stringify (l : list value) : jstring :=
  91 :: join_comma (List.map serialize l) ++ [93].

(** What [JSON.parse] does on a text: it returns, it throws, or the text
    leaves the part of JSON that is modelled ([Unmodelled]: an object, an
    array inside an array, a number with a fraction or an exponent or of
    a magnitude above 2^53 - 1), in which case the model makes no
    statement about the text. *)
Inductive result (A : Type) : Type :=
  | Ret (a : A)
  | Exn (e : error)
  | Unmodelled.
Arguments Ret {A} a.
Arguments Exn {A} e.
Arguments Unmodelled {A}.

Definition result_map {A B : Type} (f : A -> B) (r : result (A * jstring))
  : result (B * jstring) :=
  match r with
  | Ret (a, rest) => Ret (f a, rest)
  | Exn e => Exn e
  | Unmodelled => Unmodelled
  end.

Inductive jvalue : Type :=
  | JScalar (v : value)
  | JArray (items : list value).

Definition is_json_space (c : N) : bool :=
  (c =? 0x20) || (c =? 0x09) || (c =? 0x0A) || (c =? 0x0D).

Fixpoint skip_ws (s : jstring) : jstring :=
  match s with
  | [] => []
  | c :: s' => if is_json_space c then skip_ws s' else s
  end.

Definition digit_of (c : N) : option (Decimal.uint -> Decimal.uint) :=
  if c =? 48 then Some Decimal.D0
  else if c =? 49 then Some Decimal.D1
  else if c =? 50 then Some Decimal.D2
  else if c =? 51 then Some Decimal.D3
  else if c =? 52 then Some Decimal.D4
  else if c =? 53 then Some Decimal.D5
  else if c =? 54 then Some Decimal.D6
  else if c =? 55 then Some Decimal.D7
  else if c =? 56 then Some Decimal.D8
  else if c =? 57 then Some Decimal.D9
  else None.

Definition is_digit (c : N) : bool := (48 <=? c) && (c <=? 57).

(** The longest prefix of digits, and what follows it. *)
Fixpoint read_digits (s : jstring) : Decimal.uint * jstring :=
  match s with
  | [] => (Decimal.Nil, [])
  | c :: s' =>
      match digit_of c with
      | Some d => let (u, rest) := read_digits s' in (d u, rest)
      | None => (Decimal.Nil, s)
      end
  end.

Definition starts_fraction_or_exponent (s : jstring) : bool :=
  match s with
  | c :: _ => (c =? 46) || (c =? 101) || (c =? 69)    (* . e E *)
  | [] => false
  end.

(** JSON [int] without sign: a single 0, or digits not starting with 0.
    A literal above 2^53 - 1 is rounded to a double by [JSON.parse]; it
    leaves the model, like one with a fraction or an exponent. *)
Definition parse_unsigned (s : jstring) : result (N * jstring) :=
  let (u, rest) := read_digits s in
  match u with
  | Decimal.Nil => Exn SyntaxError
  | Decimal.D0 (Decimal.D0 _ | Decimal.D1 _ | Decimal.D2 _ | Decimal.D3 _
               | Decimal.D4 _ | Decimal.D5 _ | Decimal.D6 _ | Decimal.D7 _
               | Decimal.D8 _ | Decimal.D9 _) => Exn SyntaxError
  | _ => if starts_fraction_or_exponent rest then Unmodelled
         else if Z.to_N MAX_SAFE_INTEGER <? N.of_uint u then Unmodelled
         else Ret (N.of_uint u, rest)
  end.

(** The Number with the value [z], when it is one of the model. *)
Definition number (z : Z) (rest : jstring) : result (value * jstring) :=
  match decide (Is_true (is_safe_integer z)) with
  | left safe => Ret (VNum z safe, rest)
  | right _ => Unmodelled
  end.

Definition parse_number (s : jstring) : result (value * jstring) :=
  match s with
  | c :: s' =>
      if c =? 45 then
        match parse_unsigned s' with
        | Ret (n, rest) => number (- Z.of_N n) rest
        | Exn e => Exn e
        | Unmodelled => Unmodelled
        end
      else
        match parse_unsigned s with
        | Ret (n, rest) => number (Z.of_N n) rest
        | Exn e => Exn e
        | Unmodelled => Unmodelled
        end
  | [] => Exn SyntaxError
  end.

Definition hex_value (c : N) : option N :=
  if (48 <=? c) && (c <=? 57) then Some (c - 48)
  else if (97 <=? c) && (c <=? 102) then Some (c - 87)
  else if (65 <=? c) && (c <=? 70) then Some (c - 55)
  else None.

(** The character after a backslash, other than [u]. *)
Definition escape_char (e : N) : option N :=
  if e =? 34 then Some 34
  else if e =? 92 then Some 92
  else if e =? 47 then Some 47
  else if e =? 98 then Some 8
  else if e =? 102 then Some 12
  else if e =? 110 then Some 10
  else if e =? 114 then Some 13
  else if e =? 116 then Some 9
  else None.

(** The characters of a string literal after its opening quote, up to and
    including the closing quote. *)
Fixpoint parse_string_body (s : jstring) : result (jstring * jstring) :=
  match s with
  | [] => Exn SyntaxError
  | c :: s' =>
      if c =? 34 then Ret ([], s')
      else if c =? 92 then
        match s' with
        | [] => Exn SyntaxError
        | e :: s'' =>
            if e =? 117 then
              match s'' with
              | h1 :: h2 :: h3 :: h4 :: s5 =>
                  match hex_value h1, hex_value h2, hex_value h3, hex_value h4 with
                  | Some a, Some b, Some c', Some d =>
                      result_map (cons (((a * 16 + b) * 16 + c') * 16 + d))
                                 (parse_string_body s5)
                  | _, _, _, _ => Exn SyntaxError
                  end
              | _ => Exn SyntaxError
              end
            else
              match escape_char e with
              | Some x => result_map (cons x) (parse_string_body s'')
              | None => Exn SyntaxError
              end
        end
      else if c <? 32 then Exn SyntaxError
      else result_map (cons c) (parse_string_body s')
  end.

Definition expect (lit : jstring) (v : value) (s : jstring)
  : result (value * jstring) :=
  if startsWith s lit then Ret (v, skipn (length lit) s) else Exn SyntaxError.

(** A value that is not an array or an object, at the head of [s]. *)
Definition parse_scalar (s : jstring) : result (value * jstring) :=
  match s with
  | [] => Exn SyntaxError
  | c :: r =>
      if c =? 34 then result_map VStr (parse_string_body r)
      else if c =? 110 then expect (js "ull") VNull r
      else if c =? 116 then expect (js "rue") (VBool true) r
      else if c =? 102 then expect (js "alse") (VBool false) r
      else if (c =? 45) || is_digit c then parse_number s
      else if (c =? 91) || (c =? 123) then Unmodelled
      else Exn SyntaxError
  end.

(** The elements of a non-empty array, [s] starting at the first one.
    [fuel] bounds the number of elements read; an element and its comma
    take two characters, so the [length s] rounds of [parse_array] are
    never used up ([parse_array_fuel]). *)
Fixpoint parse_elements (fuel : nat) (s : jstring) : result (list value * jstring) :=
  match fuel with
  | O => Unmodelled
  | S fuel' =>
      match parse_scalar (skip_ws s) with
      | Ret (v, rest) =>
          match skip_ws rest with
          | c :: rest' =>
              if c =? 44 then result_map (cons v) (parse_elements fuel' rest')
              else if c =? 93 then Ret ([v], rest')
              else Exn SyntaxError
          | [] => Exn SyntaxError
          end
      | Exn e => Exn e
      | Unmodelled => Unmodelled
      end
  end.

(** After the opening bracket. *)
Definition parse_array (s : jstring) : result (list value * jstring) :=
  match skip_ws s with
  | c :: rest =>
      if c =? 93 then Ret ([], rest) else parse_elements (length s) s
  | [] => Exn SyntaxError
  end.

Definition end_of_text {A : Type} (r : result (A * jstring)) : result A :=
  match r with
  | Ret (a, rest) =>
      match skip_ws rest with
      | [] => Ret a
      | _ :: _ => Exn SyntaxError
      end
  | Exn e => Exn e
  | Unmodelled => Unmodelled
  end.

Definition JSON_parse (text : jstring) : result jvalue :=
  match skip_ws text with
  | c :: s =>
      if c =? 91 then end_of_text (result_map JArray (parse_array s))
      else end_of_text (result_map JScalar (parse_scalar (c :: s)))
  | [] => Exn SyntaxError
  end.

(** The string iterator yields code points: a surrogate pair is one item. *)
Fixpoint code_points (s : jstring) : list jstring :=
  match s with
  | [] => []
  | c :: s' =>
      if is_high_surrogate c then
        match s' with
        | d :: s'' =>
            if is_low_surrogate d then [c; d] :: code_points s''
            else [c] :: code_points s'
        | [] => [[c]]
        end
      else [c] :: code_points s'
  end.

(** [new Set(v)] for a parsed [v]: [null] gives the empty set, an array
    and a string are iterated, anything else is not iterable. *)
Definition new_Set (v : jvalue) : outcome jsset :=
  match v with
  | JArray items => Ok (Set_from items)
  | JScalar VNull => Ok []
  | JScalar (VStr s) => Ok (Set_from (List.map VStr (code_points s)))
  | JScalar _ => Throw TypeError
  end.

(** ** The catalog and the page *)

(** An entry of recipes.json.  Every field is read as a property of a
    parsed object, so each holds a [value]; the catalog is taken to be an
    array of such objects. *)
Record recipe : Type := {
  id : value;
  name_en : value;
  name_ko : value;
  category_en : value;
  category_ko : value;
  image_url : value;
  source_url : value;
  materials_en : value;
  materials_ko : value;
  source_en : value;
  source_ko : value;
  buy_price : value;
  sell_price : value;
  owned : value
}.

(** What [renderRecipes] assigns to the clone of the card template.  The
    fields hold the assigned values; [checkbox_checked] is the state the
    checkbox is rendered with, and [card_recipe] the recipe captured by the
    two listeners of the card. *)
Record card : Type := {
  img_src : value;
  img_alt : jstring;
  nameKo_textContent : value;
  nameEn_textContent : value;
  category_textContent : value;
  materials_textContent : value;
  source_textContent : value;
  checkbox_checked : bool;
  card_recipe : recipe
}.

(** A child of [recipeGrid]: a card, or the paragraph [<p>오류: m</p>]
    where [m] is the message of the error. *)
Inductive node : Type :=
  | CardNode (c : card)
  | ErrorParagraph (e : error).

(** [res] of [fetch]: its [ok] flag, and the catalog its body denotes when
    the body is JSON text ([None] when it is not). *)
Record response : Type := {
  ok : bool;
  body : option (list recipe)
}.

(** [res.json()] rejects with a SyntaxError when the body is not JSON. *)
Definition json (res : response) : outcome (list recipe) :=
  match body res with
  | Some parsed => Ok parsed
  | None => Throw SyntaxError
  end.

(** The page the script runs in.  [network url] is the response to a
    request of [url], [None] when the request itself fails. *)
Record page : Type := {
  location_protocol : jstring;
  network : jstring -> option response;
  storage : gmap jstring jstring;
  stats_initial : jstring;
  recipeGrid_initial : list node
}.

Record state : Type := {
  allRecipes : list recipe;
  currentCategory : jstring;
  searchText : jstring;
  ownedIds : jsset;
  localStorage : gmap jstring jstring;
  stats_textContent : jstring;
  recipeGrid : list node;
  requests : list jstring;
  listeners : nat
}.

Definition set_allRecipes (v : list recipe) (st : state) : state :=
  {| allRecipes := v; currentCategory := currentCategory st;
     searchText := searchText st; ownedIds := ownedIds st;
     localStorage := localStorage st;
     stats_textContent := stats_textContent st;
     recipeGrid := recipeGrid st; requests := requests st;
     listeners := listeners st |}.

Definition set_currentCategory (v : jstring) (st : state) : state :=
  {| allRecipes := allRecipes st; currentCategory := v;
     searchText := searchText st; ownedIds := ownedIds st;
     localStorage := localStorage st;
     stats_textContent := stats_textContent st;
     recipeGrid := recipeGrid st; requests := requests st;
     listeners := listeners st |}.

Definition set_searchText (v : jstring) (st : state) : state :=
  {| allRecipes := allRecipes st; currentCategory := currentCategory st;
     searchText := v; ownedIds := ownedIds st;
     localStorage := localStorage st;
     stats_textContent := stats_textContent st;
     recipeGrid := recipeGrid st; requests := requests st;
     listeners := listeners st |}.

Definition set_ownedIds (v : jsset) (st : state) : state :=
  {| allRecipes := allRecipes st; currentCategory := currentCategory st;
     searchText := searchText st; ownedIds := v;
     localStorage := localStorage st;
     stats_textContent := stats_textContent st;
     recipeGrid := recipeGrid st; requests := requests st;
     listeners := listeners st |}.

Definition set_localStorage (v : gmap jstring jstring) (st : state) : state :=
  {| allRecipes := allRecipes st; currentCategory := currentCategory st;
     searchText := searchText st; ownedIds := ownedIds st;
     localStorage := v;
     stats_textContent := stats_textContent st;
     recipeGrid := recipeGrid st; requests := requests st;
     listeners := listeners st |}.

Definition set_stats_textContent (v : jstring) (st : state) : state :=
  {| allRecipes := allRecipes st; currentCategory := currentCategory st;
     searchText := searchText st; ownedIds := ownedIds st;
     localStorage := localStorage st;
     stats_textContent := v;
     recipeGrid := recipeGrid st; requests := requests st;
     listeners := listeners st |}.

Definition set_recipeGrid (v : list node) (st : state) : state :=
  {| allRecipes := allRecipes st; currentCategory := currentCategory st;
     searchText := searchText st; ownedIds := ownedIds st;
     localStorage := localStorage st;
     stats_textContent := stats_textContent st;
     recipeGrid := v; requests := requests st;
     listeners := listeners st |}.

Definition set_requests (v : list jstring) (st : state) : state :=
  {| allRecipes := allRecipes st; currentCategory := currentCategory st;
     searchText := searchText st; ownedIds := ownedIds st;
     localStorage := localStorage st;
     stats_textContent := stats_textContent st;
     recipeGrid := recipeGrid st; requests := v;
     listeners := listeners st |}.

Definition set_listeners (v : nat) (st : state) : state :=
  {| allRecipes := allRecipes st; currentCategory := currentCategory st;
     searchText := searchText st; ownedIds := ownedIds st;
     localStorage := localStorage st;
     stats_textContent := stats_textContent st;
     recipeGrid := recipeGrid st; requests := requests st;
     listeners := v |}.

(** ** Statements that read and write the state and may throw *)

Definition M (A : Type) : Type := state -> outcome A * state.

Definition ret {A : Type} (a : A) : M A := fun st => (Ok a, st).

Definition throw {A : Type} (e : error) : M A := fun st => (Throw e, st).

Definition bind {A B : Type} (m : M A) (k : A -> M B) : M B :=
  fun st =>
    match m st with
    | (Ok a, st') => k a st'
    | (Throw e, st') => (Throw e, st')
    end.

Definition read {A : Type} (f : state -> A) : M A := fun st => (Ok (f st), st).

Definition assign (f : state -> state) : M unit := fun st => (Ok tt, f st).

Definition lift {A : Type} (o : outcome A) : M A := fun st => (o, st).

Definition try_catch {A : Type} (body : M A) (handler : error -> M A) : M A :=
  fun st =>
    match body st with
    | (Ok a, st') => (Ok a, st')
    | (Throw e, st') => handler e st'
    end.

Declare Scope stmt_scope.
Delimit Scope stmt_scope with stmt.
Bind Scope stmt_scope with M.
Notation "x <- m ;; k" := (bind m (fun x => k))
  (at level 100, m at next level, k at level 200, right associativity,
   only parsing) : stmt_scope.
Notation "m ;; k" := (bind m (fun _ => k))
  (at level 100, k at level 200, right associativity, only parsing) : stmt_scope.
Local Open Scope stmt_scope.

(** [for (const x of l) body(x)] *)
Fixpoint for_of {A : Type} (l : list A) (body : A -> M unit) : M unit :=
  match l with
  | [] => ret tt
  | x :: l' => body x ;; for_of l' body
  end.

(** [Array.prototype.filter] with a callback that may throw: the elements
    are visited in order and the first exception ends the call. *)
Fixpoint Array_filter {A : Type} (f : A -> outcome bool) (l : list A)
  : outcome (list A) :=
  match l with
  | [] => Ok []
  | x :: l' =>
      match f x with
      | Throw e => Throw e
      | Ok keep =>
          match Array_filter f l' with
          | Throw e => Throw e
          | Ok kept => Ok (if keep then x :: kept else kept)
          end
      end
  end.

(** ** app.js *)

Definition STORAGE_KEY : jstring := js "acnh_owned_recipe_ids".

(** Line 6: [new Set(JSON.parse(localStorage.getItem(STORAGE_KEY) || "[]"))].
    [getItem] gives null for a missing key; null and the empty string are
    falsy. *)
Definition initial_ownedIds (stored : option jstring) : result jsset :=
  let text := match stored with
              | Some (c :: s) => c :: s
              | Some [] | None => js "[]"
              end in
  match JSON_parse text with
  | Ret v => match new_Set v with
             | Ok s => Ret s
             | Throw e => Exn e
             end
  | Exn e => Exn e
  | Unmodelled => Unmodelled
  end.

Definition saveOwned : M unit :=
  assign (fun st =>
    set_localStorage
      (<[STORAGE_KEY := JSON_stringify (Set_values (ownedIds st))]> (localStorage st))
      st).

Definition blocked_message : jstring :=
  js "index.html을 파일로 직접 열면 데이터 로딩이 차단됩니다. 터미널에서 `python3 -m http.server 5500` 실행 후 http://localhost:5500 으로 접속하세요.".

Definition fetch_failed_message : jstring :=
  js "recipes.json 파일을 읽지 못했습니다.".

Definition ownedCount (owned : jsset) (visibleRecipes : list recipe) : nat :=
  length (List.filter (fun recipe => Set_has owned (id recipe)) visibleRecipes).

(** The template literal of [renderStats]; both counts are lengths of
    arrays. *)
Definition stats_line (visibleCount ownedCount : nat) : jstring :=
  js "표시 " ++ Number_toString (Z.of_nat visibleCount) ++ js "개 | 보유 "
  ++ Number_toString (Z.of_nat ownedCount) ++ js "개".

Definition renderStats (visibleRecipes : list recipe) : M unit :=
  owned <- read ownedIds ;;
  assign (set_stats_textContent
            (stats_line (length visibleRecipes) (ownedCount owned visibleRecipes))).

(** Lines 45-62: the clone of the template, filled in for [recipe]. *)
Definition render_card (owned : jsset) (recipe : recipe) : card :=
  {| img_src := or_else (image_url recipe) (VStr []);
     img_alt := ToString (name_ko recipe) ++ js " 이미지";
     nameKo_textContent := or_else (name_ko recipe) (name_en recipe);
     nameEn_textContent := name_en recipe;
     category_textContent := category_ko recipe;
     materials_textContent :=
       or_else (or_else (materials_ko recipe) (materials_en recipe)) (VStr (js "-"));
     source_textContent :=
       or_else (or_else (source_ko recipe) (source_en recipe)) (VStr (js "-"));
     checkbox_checked := Set_has owned (id recipe);
     card_recipe := recipe |}.

(** The dblclick listener of a card: the URL it opens, if any. *)
Definition card_dblclick (recipe : recipe) : option value :=
  if truthy (source_url recipe) then Some (source_url recipe) else None.

Section App.

(** [String.prototype.toLowerCase] of the engine. *)
Variable toLowerCase : jstring -> jstring.

(** [v.toLowerCase()]: only a string has the method. *)
Definition call_toLowerCase (v : value) : outcome jstring :=
  match v with
  | VStr s => Ok (toLowerCase s)
  | _ => Throw TypeError
  end.

(** The callback of [allRecipes.filter] in [getFilteredRecipes]. *)
Definition recipe_filter (category text : jstring) (recipe : recipe)
  : outcome bool :=
  let categoryMatch :=
    jstring_eqb category (js "all")
    || strict_eq (category_en recipe) (VStr category) in
  let keyword := toLowerCase (trim text) in
  let textMatch : outcome bool :=
    match keyword with
    | [] => Ok true
    | _ :: _ =>
        match call_toLowerCase (name_ko recipe) with
        | Throw e => Throw e
        | Ok ko =>
            if includes ko keyword then Ok true
            else
              match call_toLowerCase (name_en recipe) with
              | Throw e => Throw e
              | Ok en => Ok (includes en keyword)
              end
        end
    end in
  match textMatch with
  | Ok t => Ok (categoryMatch && t)
  | Throw e => Throw e
  end.

Definition getFilteredRecipes (st : state) : outcome (list recipe) :=
  Array_filter (recipe_filter (currentCategory st) (searchText st))
               (allRecipes st).

(** The change listener of the checkbox of the card of [recipe];
    [checked] is the state of the checkbox when the event fires. *)
Definition checkbox_change (recipe : recipe) (checked : bool) : M unit :=
  (if checked
   then assign (fun st => set_ownedIds (Set_add (ownedIds st) (id recipe)) st)
   else assign (fun st => set_ownedIds (Set_delete (ownedIds st) (id recipe)) st)) ;;
  saveOwned ;;
  visible <- (fun st => (getFilteredRecipes st, st)) ;;
  renderStats visible.

Definition renderRecipes : M unit :=
  visible <- (fun st => (getFilteredRecipes st, st)) ;;
  assign (set_recipeGrid []) ;;
  renderStats visible ;;
  for_of visible (fun recipe =>
    owned <- read ownedIds ;;
    assign (fun st =>
      set_recipeGrid (recipeGrid st ++ [CardNode (render_card owned recipe)]) st)).

Variable env : page.

(** [fetch(url)] rejects with a TypeError when the request fails. *)
Definition fetch (url : jstring) : M response :=
  assign (fun st => set_requests (requests st ++ [url]) st) ;;
  match network env url with
  | Some res => ret res
  | None => throw TypeError
  end.

Definition loadRecipes : M unit :=
  if jstring_eqb (location_protocol env) (js "file:")
  then throw (Error blocked_message)
  else
    res <- fetch (js "./recipes.json") ;;
    if negb (ok res) then throw (Error fetch_failed_message)
    else
      parsed <- lift (json res) ;;
      assign (set_allRecipes parsed).

(** The input listener of the search box. *)
Definition search_input (text : jstring) : M unit :=
  assign (set_searchText text) ;;
  renderRecipes.

(** The click listener of the category filters; [button] is the
    [data-category] of the closest [.filter] ancestor of the target, if
    there is one.  The toggling of the class [active] is not modelled. *)
Definition category_click (button : option jstring) : M unit :=
  match button with
  | None => ret tt
  | Some category =>
      assign (set_currentCategory category) ;;
      renderRecipes
  end.

Definition bindEvents : M unit :=
  assign (fun st => set_listeners (S (listeners st)) st).

Definition init : M unit :=
  try_catch
    (loadRecipes ;; bindEvents ;; renderRecipes)
    (fun err =>
       assign (set_stats_textContent (js "데이터 로딩 실패")) ;;
       assign (set_recipeGrid [ErrorParagraph err])).

(** The whole script: the module-level declarations, then [init()].
    An exception of line 6 is not caught: the script ends there. *)
Definition script : result state :=
  match initial_ownedIds (storage env !! STORAGE_KEY) with
  | Ret owned =>
      Ret (snd (init {| allRecipes := [];
                        currentCategory := js "all";
                        searchText := [];
                        ownedIds := owned;
                        localStorage := storage env;
                        stats_textContent := stats_initial env;
                        recipeGrid := recipeGrid_initial env;
                        requests := [];
                        listeners := 0 |}))
  | Exn e => Exn e
  | Unmodelled => Unmodelled
  end.

End App.


(** ** Sample data *)

Definition sample_recipe (i : Z) (safe : Is_true (is_safe_integer i))
  (en ko cat_en cat_ko : string) : recipe :=
  {| id := VNum i safe;
     name_en := VStr (js en); name_ko := VStr (js ko);
     category_en := VStr (js cat_en); category_ko := VStr (js cat_ko);
     image_url := VUndefined; source_url := VUndefined;
     materials_en := VUndefined; materials_ko := VUndefined;
     source_en := VUndefined; source_ko := VUndefined;
     buy_price := VUndefined; sell_price := VUndefined;
     owned := VBool false |}.

Definition fish : recipe := sample_recipe 1 I "Fish" "생선" "Food" "음식".
Definition cake : recipe := sample_recipe 2 I "Cake" "케이크" "Dessert" "디저트".

Definition sample_state (category text : jstring) (owned : jsset) : state :=
  {| allRecipes := [fish; cake];
     currentCategory := category;
     searchText := text;
     ownedIds := owned;
     localStorage := ∅;
     stats_textContent := [];
     recipeGrid := [];
     requests := [];
     listeners := 0 |}.

(** [k] occurs in [s] as a run of consecutive code units. *)
Definition substring_of (k s : jstring) : Prop :=
  exists pre post, s = pre ++ k ++ post.

(** Both names of the recipe are strings. *)
Definition has_string_names (r : recipe) : Prop :=
  (exists ko, name_ko r = VStr ko) /\ (exists en, name_en r = VStr en).

(** The visibility predicate in the words of the specification, which
    matches the search text as it was typed. *)
Definition visible_as_specified (lower : jstring -> jstring)
    (category text : jstring) (r : recipe) : Prop :=
  (category = js "all" \/ category_en r = VStr category) /\
  (text = [] \/
   (exists ko, name_ko r = VStr ko /\ substring_of (lower text) (lower ko)) \/
   (exists en, name_en r = VStr en /\ substring_of (lower text) (lower en))).

(** A page whose stored ownership entry was cut short. *)
Definition corrupt_page : page :=
  {| location_protocol := js "http:";
     network := fun _ => Some {| ok := true; body := Some [fish; cake] |};
     storage := {[ STORAGE_KEY := js "[1,2" ]};
     stats_initial := [];
     recipeGrid_initial := [] |}.

(** A page without a stored entry, served over http. *)
Definition fresh_page : page :=
  {| location_protocol := js "http:";
     network := fun _ => Some {| ok := true; body := Some [fish; cake] |};
     storage := ∅;
     stats_initial := [];
     recipeGrid_initial := [] |}.

(** A page whose catalog lists the cake twice, and the state its script
    ends in. *)
Definition twin_page : page :=
  {| location_protocol := js "http:";
     network := fun _ => Some {| ok := true; body := Some [cake; cake] |};
     storage := ∅;
     stats_initial := [];
     recipeGrid_initial := [] |}.

Definition twin_loaded : state :=
  {| allRecipes := [cake; cake];
     currentCategory := js "all";
     searchText := [];
     ownedIds := [];
     localStorage := ∅;
     stats_textContent := js "표시 2개 | 보유 0개";
     recipeGrid := [CardNode (render_card [] cake); CardNode (render_card [] cake)];
     requests := [js "./recipes.json"];
     listeners := 1 |}.

(** The same page opened from the file system. *)
Definition file_page : page :=
  {| location_protocol := js "file:";
     network := fun _ => None;
     storage := ∅;
     stats_initial := [];
     recipeGrid_initial := [] |}.

(** The sample catalog with nothing owned, every category shown, and the
    search box holding [text]. *)
Definition searching (text : string) : state :=
  sample_state (js "all") (js text) [].

(** The checkbox of a card after the user has clicked it. *)
Definition set_checkbox_checked (b : bool) (c : card) : card :=
  {| img_src := img_src c; img_alt := img_alt c;
     nameKo_textContent := nameKo_textContent c;
     nameEn_textContent := nameEn_textContent c;
     category_textContent := category_textContent c;
     materials_textContent := materials_textContent c;
     source_textContent := source_textContent c;
     checkbox_checked := b;
     card_recipe := card_recipe c |}.

(** The user clicks the checkbox of child [i] of the grid: the browser
    flips the checkbox, then runs its change listener.  Nothing happens
    when child [i] is not a card. *)
Definition checkbox_click (lower : jstring -> jstring) (i : nat) : M unit :=
  grid <- read recipeGrid ;;
  match grid !! i with
  | Some (CardNode c) =>
      assign (fun st =>
        set_recipeGrid
          (<[i := CardNode (set_checkbox_checked (negb (checkbox_checked c)) c)]>
             (recipeGrid st)) st) ;;
      checkbox_change lower (card_recipe c) (negb (checkbox_checked c))
  | _ => ret tt
  end.

(** What the user can do on the page. *)
Inductive event : Type :=
  | SearchInput (text : jstring)
  | CategoryClick (button : option jstring)
  | CheckboxClick (i : nat).

Definition dispatch (lower : jstring -> jstring) (ev : event) : M unit :=
  match ev with
  | SearchInput text => search_input lower text
  | CategoryClick button => category_click lower button
  | CheckboxClick i => checkbox_click lower i
  end.

(** The states of a page: the one the script ends in, and the one any
    listener leaves behind, also when it throws. *)
Inductive reachable (lower : jstring -> jstring) (env : page) : state -> Prop :=
  | reachable_script (st : state) :
      script lower env = Ret st -> reachable lower env st
  | reachable_event (st : state) (ev : event) :
      reachable lower env st -> reachable lower env (snd (dispatch lower ev st)).

(** The stored entry is the JSON text of the ownership set. *)
Definition stored_ok (st : state) : Prop :=
  localStorage st !! STORAGE_KEY
  = Some (JSON_stringify (Set_values (ownedIds st))).

(** Every checkbox of the grid shows whether its recipe is owned. *)
Definition checkboxes_consistent (st : state) : Prop :=
  forall i c,
    recipeGrid st !! i = Some (CardNode c) ->
    checkbox_checked c = Set_has (ownedIds st) (id (card_recipe c)).

(** The statement [m] leaves the ownership set as it is. *)
Definition keeps_ownedIds {A : Type} (m : M A) : Prop :=
  forall st, ownedIds (snd (m st)) = ownedIds st.

(** ** The category buttons

    The click listener of [categoryFilters] also moves the class [active]
    among the [.filter] buttons.  A button is its [data-category] and
    whether it carries the class; the buttons sit beside the state. *)
Record filter_button : Type := {
  data_category : jstring;
  active : bool
}.

Record ui : Type := {
  app_state : state;
  filters : list filter_button
}.

(** [item.classList.toggle("active", item === button)] for every item,
    [button] being the item at position [i]. *)
Definition mark_active (i : nat) (buttons : list filter_button) : list filter_button :=
  imap (fun j item =>
          {| data_category := data_category item; active := bool_decide (j = i) |})
       buttons.

(** Lines 98-107; [target] is the position of the closest [.filter]
    ancestor of the click target among the buttons, if there is one. *)
Definition filters_click (lower : jstring -> jstring) (target : option nat) (u : ui)
  : outcome unit * ui :=
  match target with
  | None => (Ok tt, u)
  | Some i =>
      match filters u !! i with
      | None => (Ok tt, u)
      | Some button =>
          let st1 := set_currentCategory (data_category button) (app_state u) in
          let marked := mark_active i (filters u) in
          (fst (renderRecipes lower st1),
           {| app_state := snd (renderRecipes lower st1); filters := marked |})
      end
  end.

(** The checkboxes of the grid that are checked. *)
Definition checked_count (grid : list node) : nat :=
  length (List.filter (fun n => match n with
                                | CardNode c => checkbox_checked c
                                | ErrorParagraph _ => false
                                end) grid).

(** The statement [m] leaves the part [part] of the state as it is. *)
Definition keeps {A B : Type} (part : state -> B) (m : M A) : Prop :=
  forall st, part (snd (m st)) = part st.

(** The string starts with a character that [trim] keeps, or is empty. *)
Definition starts_clean (s : jstring) : Prop :=
  match s with
  | [] => True
  | c :: _ => is_js_space c = false
  end.

(** The state the script reaches [init] with, for the set [owned]. *)
Definition startup_state (env : page) (owned : jsset) : state :=
  {| allRecipes := [];
     currentCategory := js "all";
     searchText := [];
     ownedIds := owned;
     localStorage := storage env;
     stats_textContent := stats_initial env;
     recipeGrid := recipeGrid_initial env;
     requests := [];
     listeners := 0 |}.

(** A page that kept the storage of [st] and is loaded again. *)
Definition reloaded (env : page) (st : state) : page :=
  {| location_protocol := location_protocol env;
     network := network env;
     storage := localStorage st;
     stats_initial := stats_initial env;
     recipeGrid_initial := recipeGrid_initial env |}.

(** A recipe without a [name_ko]. *)
Definition soup : recipe :=
  {| id := VNum 3 I; name_en := VStr (js "Soup"); name_ko := VUndefined;
     category_en := VStr (js "Food"); category_ko := VUndefined;
     image_url := VUndefined; source_url := VUndefined;
     materials_en := VUndefined; materials_ko := VUndefined;
     source_en := VUndefined; source_ko := VUndefined;
     buy_price := VUndefined; sell_price := VUndefined;
     owned := VUndefined |}.

(** A page whose request for the catalog fails. *)
Definition offline_page : page :=
  {| location_protocol := js "http:";
     network := fun _ => None;
     storage := ∅;
     stats_initial := [];
     recipeGrid_initial := [] |}.

(** A catalog with a recipe that has no [name_ko], and "fish" typed in
    the search box. *)
Definition nameless_search : state :=
  set_allRecipes [fish; soup] (searching "fish").

(** The page with its three category buttons, the first one active. *)
Definition sample_ui : ui :=
  {| app_state := sample_state (js "all") [] [];
     filters := [ {| data_category := js "all"; active := true |};
                  {| data_category := js "Food"; active := false |};
                  {| data_category := js "Dessert"; active := false |} ] |}.

(** The twin page after a click on the checkbox of its first card. *)
Definition twin_checked : state :=
  snd (dispatch ascii_toLowerCase (CheckboxClick 0) twin_loaded).

(** ** Presence of a field, and the repetitions of an array *)

(** A field is absent when the recipe lacks it, or holds [null], the empty
    string, [false] or zero there; it is present otherwise.  The absent
    values are those that ToBoolean (ECMA-262) maps to false. *)
Definition absent (v : value) : Prop :=
  v = VUndefined \/ v = VNull \/ v = VStr [] \/ v = VBool false \/ v = VNum 0 I.

Definition present (v : value) : Prop := ~ absent v.

(** The items of an array without their repetitions: each one stays where
    it occurs first. *)
Fixpoint first_occurrences (items : list value) : list value :=
  match items with
  | [] => []
  | x :: rest =>
      x :: List.filter (fun y => negb (bool_decide (y = x))) (first_occurrences rest)
  end.

(** A recipe with every field filled in. *)
Definition pie : recipe :=
  {| id := VNum 4 I; name_en := VStr (js "Pie"); name_ko := VStr (js "파이");
     category_en := VStr (js "Dessert"); category_ko := VStr (js "디저트");
     image_url := VStr (js "img/pie.png"); source_url := VStr (js "wiki/pie");
     materials_en := VStr (js "3x flour"); materials_ko := VStr (js "밀가루 3개");
     source_en := VStr (js "Mom"); source_ko := VStr (js "엄마");
     buy_price := VNum 1200 I; sell_price := VNum 300 I;
     owned := VBool false |}.

(** A recipe whose Korean texts and image are missing, [null] or empty,
    and whose English texts are filled in. *)
Definition tart : recipe :=
  {| id := VNum 5 I; name_en := VStr (js "Tart"); name_ko := VStr [];
     category_en := VStr (js "Dessert"); category_ko := VStr (js "디저트");
     image_url := VStr []; source_url := VUndefined;
     materials_en := VStr (js "2x sugar"); materials_ko := VUndefined;
     source_en := VStr (js "Balloons"); source_ko := VNull;
     buy_price := VUndefined; sell_price := VUndefined;
     owned := VBool false |}.

(** A recipe without an id. *)
Definition unnumbered : recipe :=
  {| id := VUndefined; name_en := VStr (js "Stew"); name_ko := VStr (js "스튜");
     category_en := VStr (js "Food"); category_ko := VStr (js "음식");
     image_url := VUndefined; source_url := VUndefined;
     materials_en := VUndefined; materials_ko := VUndefined;
     source_en := VUndefined; source_ko := VUndefined;
     buy_price := VUndefined; sell_price := VUndefined;
     owned := VBool false |}.

(** * Properties *)

(** ** Strings, values and sets *)

(** Two Numbers with the same value are the same Number. *)
Lemma VNum_eq (x y : Z) (p : Is_true (is_safe_integer x))
  (q : Is_true (is_safe_integer y)) : x = y -> VNum x p = VNum y q.
Proof. intros ->. f_equal. apply proof_irrel. Qed.

Lemma jstring_eqb_eq (a b : jstring) : jstring_eqb a b = true <-> a = b.
Proof. unfold jstring_eqb. apply bool_decide_eq_true. Qed.

Lemma strict_eq_eq (a b : value) : strict_eq a b = true <-> a = b.
Proof.
  destruct a, b; simpl; split; intros H; try congruence; try discriminate.
  - apply Bool.eqb_prop in H. congruence.
  - inversion H. apply Bool.eqb_reflx.
  - apply Z.eqb_eq in H. now apply VNum_eq.
  - injection H as ->. apply Z.eqb_refl.
  - apply jstring_eqb_eq in H. congruence.
  - inversion H. now apply jstring_eqb_eq.
Qed.

Lemma strict_eq_refl (a : value) : strict_eq a a = true.
Proof. now apply strict_eq_eq. Qed.

Lemma strict_eq_neq (a b : value) : strict_eq a b = false <-> a <> b.
Proof.
  rewrite <- strict_eq_eq. destruct (strict_eq a b); split; congruence.
Qed.

Lemma Set_has_In (s : jsset) (v : value) : Set_has s v = true <-> In v s.
Proof.
  unfold Set_has. rewrite existsb_exists. split.
  - intros (x & Hx & Heq). apply strict_eq_eq in Heq. now subst.
  - intros H. exists v. split; [assumption | apply strict_eq_refl].
Qed.

Lemma Set_has_not_In (s : jsset) (v : value) : Set_has s v = false <-> ~ In v s.
Proof.
  rewrite <- Set_has_In. destruct (Set_has s v); split; congruence.
Qed.

Lemma startsWith_spec (s k : jstring) :
  startsWith s k = true <-> exists post, s = k ++ post.
Proof.
  revert s. induction k as [|c k IH]; intros s; simpl.
  - split; [intros _; now exists s | reflexivity].
  - destruct s as [|d s].
    + split; [discriminate | intros (post & H); discriminate].
    + rewrite andb_true_iff, N.eqb_eq, IH. split.
      * intros (-> & post & ->). now exists post.
      * intros (post & H). inversion H. split; [reflexivity | now exists post].
Qed.

Lemma includes_spec (s k : jstring) :
  includes s k = true <-> substring_of k s.
Proof.
  unfold substring_of. induction s as [|d s IH].
  - simpl. rewrite orb_false_r, startsWith_spec. split.
    + intros (post & H). now exists [], post.
    + intros (pre & post & H). destruct pre; [now exists post | discriminate].
  - cbn [includes]. rewrite orb_true_iff, IH, startsWith_spec. split.
    + intros [(post & H) | (pre & post & H)].
      * now exists [], post.
      * exists (d :: pre), post. simpl. now rewrite H.
    + intros (pre & post & H). destruct pre as [|x pre].
      * left. now exists post.
      * right. inversion H. now exists pre, post.
Qed.

Lemma Ok_inj {A : Type} (a b : A) : Ok a = Ok b <-> a = b.
Proof. split; congruence. Qed.

(** ** [Array.prototype.filter] *)

Lemma Array_filter_returns {A : Type} (f : A -> outcome bool) (l : list A) :
  Forall (fun x => exists b, f x = Ok b) l ->
  exists kept, Array_filter f l = Ok kept.
Proof.
  induction 1 as [|x l (b & Hb) _ (kept & IH)]; simpl.
  - now exists [].
  - rewrite Hb, IH. eauto.
Qed.

Lemma Array_filter_In {A : Type} (f : A -> outcome bool) (l kept : list A) :
  Array_filter f l = Ok kept ->
  forall x, In x kept <-> In x l /\ f x = Ok true.
Proof.
  revert kept. induction l as [|y l IH]; simpl; intros kept H x.
  - inversion H. simpl. tauto.
  - destruct (f y) as [keep|] eqn:Hy; [|discriminate].
    destruct (Array_filter f l) as [kept'|]; [|discriminate].
    inversion H; subst; clear H. specialize (IH _ eq_refl x).
    destruct keep; simpl; rewrite IH; split.
    + intros [-> | [? ?]]; auto.
    + intros [[-> | ?] ?]; auto.
    + intros [? ?]; auto.
    + intros [[-> | ?] ?]; [congruence | auto].
Qed.

Lemma Array_filter_sublist {A : Type} (f : A -> outcome bool) (l kept : list A) :
  Array_filter f l = Ok kept -> kept `sublist_of` l.
Proof.
  revert kept. induction l as [|y l IH]; simpl; intros kept H.
  - inversion H. constructor.
  - destruct (f y) as [keep|]; [|discriminate].
    destruct (Array_filter f l) as [kept'|]; [|discriminate].
    inversion H; subst; clear H. specialize (IH _ eq_refl).
    destruct keep; now constructor.
Qed.

(** The kept elements sit at strictly increasing positions of the array. *)
Lemma Array_filter_positions {A : Type} (f : A -> outcome bool) (l kept : list A) :
  Array_filter f l = Ok kept ->
  exists positions : list nat,
    StronglySorted lt positions /\
    Forall2 (fun i x => l !! i = Some x) positions kept.
Proof.
  revert kept. induction l as [|y l IH]; simpl; intros kept H.
  - inversion H. exists []. split; constructor.
  - destruct (f y) as [keep|]; [|discriminate].
    destruct (Array_filter f l) as [kept'|]; [|discriminate].
    inversion H; subst; clear H.
    destruct (IH _ eq_refl) as (ps & Hsorted & Hat).
    assert (Hshift : StronglySorted lt (List.map S ps)).
    { clear Hat. induction Hsorted as [|p ps Hs IHs Hall]; simpl; constructor.
      - exact IHs.
      - rewrite List.Forall_forall in *. intros q Hq. apply in_map_iff in Hq.
        destruct Hq as (q' & <- & Hq'). specialize (Hall _ Hq'). lia. }
    assert (Hat' : Forall2 (fun i x => (y :: l) !! i = Some x) (List.map S ps) kept').
    { clear Hsorted Hshift IH.
      induction Hat as [|i x ps' kept'' Hix _ IHat]; simpl.
      - constructor.
      - constructor; [exact Hix | exact IHat]. }
    destruct keep.
    + exists (0%nat :: List.map S ps). split.
      * constructor; [exact Hshift|].
        rewrite List.Forall_forall. intros q Hq. apply in_map_iff in Hq.
        destruct Hq as (q' & <- & _). lia.
      * constructor; [reflexivity | exact Hat'].
    + exists (List.map S ps). now split.
Qed.

Section AppProperties.

Variable toLowerCase : jstring -> jstring.

Lemma recipe_filter_returns (category text : jstring) (r : recipe) :
  toLowerCase (trim text) = [] \/ has_string_names r ->
  exists b, recipe_filter toLowerCase category text r = Ok b.
Proof.
  unfold recipe_filter. intros [Hk | [(ko & Hko) (en & Hen)]].
  - rewrite Hk. eauto.
  - destruct (toLowerCase (trim text)); [eauto|].
    rewrite Hko, Hen. simpl. destruct (includes _ _); eauto.
Qed.

(** When the callback returns [true]. *)
Lemma recipe_filter_true (category text : jstring) (r : recipe) :
  has_string_names r ->
  (recipe_filter toLowerCase category text r = Ok true <->
   (category = js "all" \/ category_en r = VStr category) /\
   (toLowerCase (trim text) = [] \/
    (exists ko, name_ko r = VStr ko /\
                substring_of (toLowerCase (trim text)) (toLowerCase ko)) \/
    (exists en, name_en r = VStr en /\
                substring_of (toLowerCase (trim text)) (toLowerCase en)))).
Proof.
  intros [(ko & Hko) (en & Hen)]. unfold recipe_filter.
  rewrite Hko, Hen. simpl call_toLowerCase.
  remember (toLowerCase (trim text)) as keyword eqn:Hkw.
  assert (Hcat : jstring_eqb category (js "all")
                 || strict_eq (category_en r) (VStr category) = true
                 <-> category = js "all" \/ category_en r = VStr category).
  { now rewrite orb_true_iff, jstring_eqb_eq, strict_eq_eq. }
  destruct keyword as [|c k].
  - rewrite Ok_inj, andb_true_r, Hcat. split.
    + intros H. split; [exact H | now left].
    + tauto.
  - destruct (includes (toLowerCase ko) (c :: k)) eqn:Hinc_ko.
    + rewrite Ok_inj, andb_true_r, Hcat. split; [|tauto].
      intros H. split; [exact H|]. right; left.
      exists ko. split; [reflexivity | now apply includes_spec].
    + rewrite Ok_inj, andb_true_iff, Hcat, includes_spec. split.
      * intros [H1 H2]. split; [exact H1|]. right; right. now exists en.
      * intros (H1 & [H2 | [(ko' & Heq & H2) | (en' & Heq & H2)]]).
        -- discriminate.
        -- inversion Heq; subst ko'. apply includes_spec in H2. congruence.
        -- inversion Heq; subst en'. now split.
Qed.

Lemma getFilteredRecipes_returns (st : state) :
  toLowerCase (trim (searchText st)) = [] \/
  Forall has_string_names (allRecipes st) ->
  exists visible, getFilteredRecipes toLowerCase st = Ok visible.
Proof.
  intros H. apply Array_filter_returns. destruct H as [H | H].
  - apply List.Forall_forall. intros r _. apply recipe_filter_returns. now left.
  - eapply List.Forall_impl; [|exact H]. intros r Hr.
    apply recipe_filter_returns. now right.
Qed.

Lemma getFilteredRecipes_frame (st st' : state) :
  allRecipes st' = allRecipes st ->
  currentCategory st' = currentCategory st ->
  searchText st' = searchText st ->
  getFilteredRecipes toLowerCase st' = getFilteredRecipes toLowerCase st.
Proof. unfold getFilteredRecipes. now intros -> -> ->. Qed.

(** C1 (amended).  For a catalog whose recipes have string names the
    filter returns, and a recipe is in the result exactly when it is in
    the catalog, the category is "all" or equals its [category_en], and
    the keyword (the search text trimmed, then lowercased) is empty or
    occurs in its lowercased [name_ko] or in its lowercased [name_en]. *)
Theorem C1_visible_iff_trimmed_keyword (st : state) :
  Forall has_string_names (allRecipes st) ->
  exists visible,
    getFilteredRecipes toLowerCase st = Ok visible /\
    forall r,
      In r visible <->
      In r (allRecipes st) /\
      (currentCategory st = js "all" \/
       category_en r = VStr (currentCategory st)) /\
      (toLowerCase (trim (searchText st)) = [] \/
       (exists ko, name_ko r = VStr ko /\
          substring_of (toLowerCase (trim (searchText st))) (toLowerCase ko)) \/
       (exists en, name_en r = VStr en /\
          substring_of (toLowerCase (trim (searchText st))) (toLowerCase en))).
Proof.
  intros Hnames.
  destruct (getFilteredRecipes_returns st (or_intror Hnames)) as (visible & Hvis).
  exists visible. split; [exact Hvis|]. intros r.
  rewrite (Array_filter_In _ _ _ Hvis r). split.
  - intros [Hin Hf]. split; [exact Hin|].
    apply recipe_filter_true; [|exact Hf].
    rewrite List.Forall_forall in Hnames. now apply Hnames.
  - intros [Hin Hp]. split; [exact Hin|].
    apply recipe_filter_true; [|exact Hp].
    rewrite List.Forall_forall in Hnames. now apply Hnames.
Qed.

(** C2.  The filter returns whenever the keyword is empty or the names
    are strings, and whatever it returns is a subsequence of the catalog:
    it is obtained by dropping entries, its entries are entries of the
    catalog, they sit at strictly increasing positions of the catalog
    (no entry is used twice, the order is kept), and it repeats no recipe
    when the catalog repeats none. *)
Theorem C2_visible_is_subsequence (st : state) :
  (toLowerCase (trim (searchText st)) = [] \/
   Forall has_string_names (allRecipes st) ->
   exists visible, getFilteredRecipes toLowerCase st = Ok visible) /\
  (forall visible,
     getFilteredRecipes toLowerCase st = Ok visible ->
     visible `sublist_of` allRecipes st /\
     (forall r, In r visible -> In r (allRecipes st)) /\
     (exists positions : list nat,
        StronglySorted lt positions /\
        Forall2 (fun i r => allRecipes st !! i = Some r) positions visible) /\
     (NoDup (allRecipes st) -> NoDup visible)).
Proof.
  split; [apply getFilteredRecipes_returns|].
  intros visible Hvis.
  pose proof (Array_filter_sublist _ _ _ Hvis) as Hsub.
  split; [exact Hsub|]. split; [|split].
  - intros r Hr. now apply (Array_filter_In _ _ _ Hvis r).
  - exact (Array_filter_positions _ _ _ Hvis).
  - intros Hnd. eapply sublist_NoDup; eassumption.
Qed.

(** C5.  The change listener of a checkbox leaves the catalog, the
    filter state, the rendered grid, the request log, the listeners and
    every other key of the storage as they were: the visible subset,
    and with it the visible count, is the same before and after, for
    any recipe, visible or not. *)
Theorem C5_toggle_keeps_visible_subset
    (recipe : recipe) (checked : bool) (st : state) :
  allRecipes (snd (checkbox_change toLowerCase recipe checked st)) = allRecipes st /\
  currentCategory (snd (checkbox_change toLowerCase recipe checked st))
    = currentCategory st /\
  searchText (snd (checkbox_change toLowerCase recipe checked st)) = searchText st /\
  recipeGrid (snd (checkbox_change toLowerCase recipe checked st)) = recipeGrid st /\
  requests (snd (checkbox_change toLowerCase recipe checked st)) = requests st /\
  listeners (snd (checkbox_change toLowerCase recipe checked st)) = listeners st /\
  (forall key, key <> STORAGE_KEY ->
     localStorage (snd (checkbox_change toLowerCase recipe checked st)) !! key
     = localStorage st !! key) /\
  getFilteredRecipes toLowerCase (snd (checkbox_change toLowerCase recipe checked st))
    = getFilteredRecipes toLowerCase st /\
  (forall visible,
     getFilteredRecipes toLowerCase st = Ok visible ->
     stats_textContent (snd (checkbox_change toLowerCase recipe checked st))
     = stats_line (length visible)
         (ownedCount
            (ownedIds (snd (checkbox_change toLowerCase recipe checked st)))
            visible)).
Proof.
  assert (Hget : forall f,
    getFilteredRecipes toLowerCase
      (set_localStorage (<[STORAGE_KEY := JSON_stringify (Set_values f)]> (localStorage st))
         (set_ownedIds f st))
    = getFilteredRecipes toLowerCase st) by reflexivity.
  unfold checkbox_change, bind, saveOwned, renderStats, assign, read.
  destruct checked; rewrite Hget;
    destruct (getFilteredRecipes toLowerCase st) as [visible|e] eqn:Hvis; simpl;
    repeat split; try (intros key Hkey; now apply lookup_insert_ne);
    try (intros v Hv; now inversion Hv); try discriminate;
    (etransitivity; [apply (getFilteredRecipes_frame st); reflexivity | exact Hvis]).
Qed.

End AppProperties.

(** ** The status line *)

Lemma Number_toString_nat (n : nat) : Number_toString (Z.of_nat n) = decimal (N.of_nat n).
Proof.
  simpl. unfold Number_toString.
  destruct (Z.ltb_spec (Z.of_nat n) 0) as [H|_]; [lia|].
  now rewrite <- nat_N_Z, N2Z.id.
Qed.

Lemma ownedCount_members (owned : jsset) (visible : list recipe) :
  ownedCount owned visible
  = length (filter (fun r => id r ∈ owned) visible).
Proof.
  unfold ownedCount. induction visible as [|r visible IH]; [reflexivity|].
  rewrite filter_cons. simpl. destruct (decide (id r ∈ owned)) as [Hin|Hout].
  - apply list_elem_of_In, Set_has_In in Hin. rewrite Hin. simpl. now rewrite IH.
  - rewrite list_elem_of_In in Hout. apply Set_has_not_In in Hout. now rewrite Hout.
Qed.

Lemma ownedCount_le (owned : jsset) (visible : list recipe) :
  (ownedCount owned visible <= length visible)%nat.
Proof. unfold ownedCount. apply List.filter_length_le. Qed.

(** C4.  [renderStats] returns normally and writes the line
    "표시 V개 | 보유 O개", V being the number of visible recipes in decimal
    and O the number of visible recipes whose id is in the ownership set;
    with both sample recipes visible and owned the line is
    "표시 2개 | 보유 2개". *)
Theorem C4_renderStats_counts (visible : list recipe) (st : state) :
  fst (renderStats visible st) = Ok tt /\
  stats_textContent (snd (renderStats visible st))
  = js "표시 " ++ decimal (N.of_nat (length visible)) ++ js "개 | 보유 "
    ++ decimal (N.of_nat (length (filter (fun r => id r ∈ ownedIds st) visible)))
    ++ js "개" /\
  stats_textContent
    (snd (renderStats [fish; cake] (sample_state (js "all") [] [VNum 1 I; VNum 2 I])))
  = js "표시 2개 | 보유 2개".
Proof.
  split; [reflexivity|]. split; [|reflexivity].
  unfold renderStats, bind, read, assign. simpl. unfold stats_line.
  now rewrite !Number_toString_nat, ownedCount_members.
Qed.

(** C10.  The line written by [renderStats] reports an owned count that
    is at most the visible count, and an owned count of 0 when nothing is
    visible. *)
Theorem C10_owned_count_at_most_visible (visible : list recipe) (st : state) :
  exists visibleCount owned_count : nat,
    stats_textContent (snd (renderStats visible st))
    = stats_line visibleCount owned_count /\
    visibleCount = length visible /\
    owned_count = ownedCount (ownedIds st) visible /\
    (owned_count <= visibleCount)%nat /\
    (visible = [] -> owned_count = 0%nat).
Proof.
  exists (length visible), (ownedCount (ownedIds st) visible).
  split; [reflexivity|]. split; [reflexivity|]. split; [reflexivity|].
  split; [apply ownedCount_le|]. now intros ->.
Qed.

(** ** JSON: parsing what [JSON.stringify] wrote *)

(** Decide every comparison of a code unit with a constant that occurs in
    the goal; [tac] closes the case in which they are equal. *)
Ltac case_code_unit tac :=
  repeat match goal with
         | |- context [?a =? ?b] =>
             destruct (N.eqb_spec a b) as [->|?]; [tac|]
         end.

Lemma nzhead_not_D0 (d d' : Decimal.uint) : Decimal.nzhead d <> Decimal.D0 d'.
Proof. induction d; simpl; try discriminate; auto. Qed.

(** The digits of a number: a single 0, or a first digit other than 0. *)
Lemma to_uint_normal (n : N) :
  match N.to_uint n with
  | Decimal.Nil => False
  | Decimal.D0 d => d = Decimal.Nil
  | _ => True
  end.
Proof.
  pose proof (DecimalN.Unsigned.to_of (N.to_uint n)) as H.
  rewrite DecimalN.Unsigned.of_to in H. rewrite H. unfold Decimal.unorm.
  destruct (Decimal.nzhead (N.to_uint n)) eqn:Hnz; try exact I; try reflexivity.
  now apply nzhead_not_D0 in Hnz.
Qed.

Lemma digit_of_is_digit (c : N) :
  is_digit c = true <-> digit_of c <> None.
Proof.
  unfold is_digit, digit_of.
  rewrite andb_true_iff, N.leb_le, N.leb_le.
  case_code_unit ltac:(split; [discriminate | intros _; lia]).
  split; [intros [? ?]; exfalso; lia | congruence].
Qed.

Lemma uint_codes_head (u : Decimal.uint) :
  u <> Decimal.Nil ->
  exists c s, uint_codes u = c :: s /\ is_digit c = true.
Proof. destruct u; simpl; intros H; try congruence; eauto. Qed.

Lemma decimal_head (n : N) :
  exists c s, decimal n = c :: s /\ is_digit c = true.
Proof.
  apply uint_codes_head. pose proof (to_uint_normal n) as H.
  destruct (N.to_uint n); [contradiction | discriminate..].
Qed.

Lemma read_digits_uint_codes (u : Decimal.uint) (rest : jstring) :
  match rest with c :: _ => is_digit c = false | [] => True end ->
  read_digits (uint_codes u ++ rest) = (u, rest).
Proof.
  intros Hrest. induction u; simpl; try (rewrite IHu; reflexivity).
  destruct rest as [|c rest]; [reflexivity|]. simpl.
  destruct (digit_of c) eqn:Hd; [|reflexivity].
  assert (is_digit c = true) by (apply digit_of_is_digit; congruence).
  congruence.
Qed.

Lemma parse_unsigned_decimal (n : N) (rest : jstring) :
  match rest with c :: _ => is_digit c = false | [] => True end ->
  starts_fraction_or_exponent rest = false ->
  n <= Z.to_N MAX_SAFE_INTEGER ->
  parse_unsigned (decimal n ++ rest) = Ret (n, rest).
Proof.
  intros Hrest Hfrac Hsafe. apply N.ltb_ge in Hsafe.
  unfold parse_unsigned, decimal.
  rewrite read_digits_uint_codes by exact Hrest.
  pose proof (to_uint_normal n) as Hn.
  pose proof (DecimalN.Unsigned.of_to n) as Hof.
  destruct (N.to_uint n) as [|d|d|d|d|d|d|d|d|d|d];
    try contradiction; try (rewrite Hfrac, Hof, Hsafe; reflexivity).
  subst d. now rewrite Hfrac, Hof, Hsafe.
Qed.

Lemma number_safe (z : Z) (safe : Is_true (is_safe_integer z)) (rest : jstring) :
  number z rest = Ret (VNum z safe, rest).
Proof.
  unfold number. destruct (decide (Is_true (is_safe_integer z))) as [p|n].
  - do 2 f_equal. now apply VNum_eq.
  - contradiction.
Qed.

Lemma is_safe_integer_bounds (z : Z) :
  Is_true (is_safe_integer z) ->
  (- MAX_SAFE_INTEGER <= z <= MAX_SAFE_INTEGER)%Z.
Proof.
  unfold is_safe_integer. intros H. apply Is_true_true in H.
  apply andb_true_iff in H. destruct H as [H1 H2].
  apply Z.leb_le in H1. apply Z.leb_le in H2. split; assumption.
Qed.

Lemma hex_value_hex_digit (d : N) : d < 16 -> hex_value (hex_digit d) = Some d.
Proof.
  intros H.
  assert (d = 0 \/ d = 1 \/ d = 2 \/ d = 3 \/ d = 4 \/ d = 5 \/ d = 6 \/ d = 7 \/
          d = 8 \/ d = 9 \/ d = 10 \/ d = 11 \/ d = 12 \/ d = 13 \/ d = 14 \/ d = 15)
    as Hcases by lia.
  repeat (destruct Hcases as [-> | Hcases]; [reflexivity|]).
  now subst d.
Qed.

Lemma hex_digits_value (c : N) :
  c < 65536 ->
  (((c / 4096 mod 16) * 16 + c / 256 mod 16) * 16 + c / 16 mod 16) * 16 + c mod 16 = c.
Proof.
  intros H.
  assert (E1 : c / 16 / 16 = c / 256) by now rewrite N.Div0.div_div.
  assert (E2 : c / 256 / 16 = c / 4096) by now rewrite N.Div0.div_div.
  pose proof (N.div_mod c 16 ltac:(lia)) as H0.
  pose proof (N.div_mod (c / 16) 16 ltac:(lia)) as H1.
  pose proof (N.div_mod (c / 256) 16 ltac:(lia)) as H2.
  rewrite E1 in H1. rewrite E2 in H2.
  assert (c / 4096 < 16) as H3 by (apply N.Div0.div_lt_upper_bound; lia).
  rewrite (N.mod_small (c / 4096) 16) by exact H3. lia.
Qed.

Lemma parse_string_literal (c : N) (s : jstring) :
  c <> 34 -> c <> 92 -> 32 <= c ->
  parse_string_body (c :: s) = result_map (cons c) (parse_string_body s).
Proof.
  intros H34 H92 H32. cbn [parse_string_body].
  destruct (N.eqb_spec c 34); [contradiction|].
  destruct (N.eqb_spec c 92); [contradiction|].
  destruct (N.ltb_spec c 32); [lia | reflexivity].
Qed.

Lemma parse_unicode_escape (c : N) (s : jstring) :
  c < 65536 ->
  parse_string_body (unicode_escape c ++ s)
  = result_map (cons c) (parse_string_body s).
Proof.
  intros H. unfold unicode_escape.
  change (parse_string_body
            ([92; 117; hex_digit (c / 4096 mod 16); hex_digit (c / 256 mod 16);
              hex_digit (c / 16 mod 16); hex_digit (c mod 16)] ++ s))
    with (match hex_value (hex_digit (c / 4096 mod 16)),
                hex_value (hex_digit (c / 256 mod 16)),
                hex_value (hex_digit (c / 16 mod 16)),
                hex_value (hex_digit (c mod 16)) with
          | Some a, Some b, Some c', Some d =>
              result_map (cons (((a * 16 + b) * 16 + c') * 16 + d))
                         (parse_string_body s)
          | _, _, _, _ => Exn SyntaxError
          end).
  rewrite !hex_value_hex_digit by (apply N.mod_lt; lia).
  now rewrite hex_digits_value.
Qed.

Lemma parse_quote_code_unit (c : N) (s : jstring) :
  is_high_surrogate c = false -> is_low_surrogate c = false ->
  parse_string_body (quote_code_unit c ++ s)
  = result_map (cons c) (parse_string_body s).
Proof.
  intros Hhi Hlo. unfold quote_code_unit.
  case_code_unit ltac:(reflexivity).
  destruct (N.ltb_spec c 32).
  - apply parse_unicode_escape. lia.
  - apply parse_string_literal; assumption.
Qed.

(** The parser reads back what QuoteJSONString wrote. *)
Lemma parse_quote_body (s rest : jstring) :
  parse_string_body (quote_body s ++ 34 :: rest) = Ret (s, rest).
Proof.
  remember (length s) as n eqn:Hn. revert s Hn.
  induction n as [n IH] using lt_wf_ind. intros s Hn.
  destruct s as [|c s]; [reflexivity|].
  cbn [quote_body].
  assert (Hlit : forall x, is_high_surrogate x = true \/ is_low_surrogate x = true ->
                 x <> 34 /\ x <> 92 /\ 32 <= x /\ x < 65536).
  { intros x. unfold is_high_surrogate, is_low_surrogate.
    rewrite !andb_true_iff, !N.leb_le. lia. }
  destruct (is_high_surrogate c) eqn:Hhi.
  - destruct (Hlit c (or_introl Hhi)) as (? & ? & ? & ?).
    destruct s as [|d s].
    + rewrite parse_unicode_escape by assumption. reflexivity.
    + destruct (is_low_surrogate d) eqn:Hlo.
      * destruct (Hlit d (or_intror Hlo)) as (? & ? & ? & ?).
        cbn [app]. rewrite !parse_string_literal by assumption.
        rewrite (IH (length s)) by (simpl in Hn; lia || reflexivity).
        reflexivity.
      * rewrite <- app_assoc, parse_unicode_escape by assumption.
        rewrite (IH (length (d :: s))) by (simpl in *; lia || reflexivity).
        reflexivity.
  - destruct (is_low_surrogate c) eqn:Hlo.
    + destruct (Hlit c (or_intror Hlo)) as (? & ? & ? & ?).
      rewrite <- app_assoc, parse_unicode_escape by assumption.
      rewrite (IH (length s)) by (simpl in *; lia || reflexivity).
      reflexivity.
    + rewrite <- app_assoc, parse_quote_code_unit by assumption.
      rewrite (IH (length s)) by (simpl in *; lia || reflexivity).
      reflexivity.
Qed.

Lemma is_digit_bounds (c : N) : is_digit c = true <-> 48 <= c <= 57.
Proof. unfold is_digit. now rewrite andb_true_iff, !N.leb_le. Qed.

Lemma parse_scalar_digit (c : N) (r : jstring) :
  is_digit c = true -> parse_scalar (c :: r) = parse_number (c :: r).
Proof.
  intros Hd. pose proof (proj1 (is_digit_bounds c) Hd) as Hb.
  unfold parse_scalar. rewrite Hd, orb_true_r.
  case_code_unit ltac:(exfalso; lia).
  reflexivity.
Qed.

(** The first character of a serialized value is not white space and is
    not a closing bracket. *)
Lemma serialize_head (v : value) :
  exists c s, serialize v = c :: s /\ is_json_space c = false /\ c <> 93.
Proof.
  destruct v as [| |[|]|z safe|str]; simpl;
    try (eexists _, _; split; [reflexivity | split; [reflexivity | discriminate]]).
  unfold Number_toString. destruct (z <? 0)%Z.
  - eexists _, _; split; [reflexivity | split; [reflexivity | discriminate]].
  - destruct (decimal_head (Z.to_N z)) as (c & s & -> & Hd).
    exists c, s. apply is_digit_bounds in Hd. split; [reflexivity|].
    unfold is_json_space. split; [|lia].
    case_code_unit ltac:(exfalso; lia).
    reflexivity.
Qed.

Lemma skip_ws_serialize (v : value) (r : jstring) :
  skip_ws (serialize v ++ r) = serialize v ++ r.
Proof.
  destruct (serialize_head v) as (c & s & -> & Hc & _). simpl. now rewrite Hc.
Qed.

Lemma parse_scalar_serialize (v : value) (c : N) (rest : jstring) :
  c = 44 \/ c = 93 ->
  v <> VUndefined ->
  parse_scalar (serialize v ++ c :: rest) = Ret (v, c :: rest).
Proof.
  intros Hc Hv.
  assert (Hend : is_digit c = false /\ starts_fraction_or_exponent (c :: rest) = false)
    by (destruct Hc as [-> | ->]; split; reflexivity).
  destruct Hend as [Hdigit Hfrac].
  destruct v as [| |[|]|z safe|str]; try contradiction; try reflexivity.
  - (* a number *)
    pose proof (is_safe_integer_bounds z safe) as Hb.
    unfold MAX_SAFE_INTEGER in Hb.
    simpl serialize. unfold Number_toString.
    destruct (Z.ltb_spec z 0) as [Hneg|Hpos].
    + change (parse_scalar ((45 :: decimal (Z.to_N (- z))) ++ c :: rest))
        with (match parse_unsigned (decimal (Z.to_N (- z)) ++ c :: rest) with
              | Ret (n, r) => number (- Z.of_N n) r
              | Exn e => Exn e
              | Unmodelled => Unmodelled
              end).
      rewrite parse_unsigned_decimal
        by (try assumption; unfold MAX_SAFE_INTEGER; lia).
      replace (- Z.of_N (Z.to_N (- z)))%Z with z by lia.
      apply number_safe.
    + destruct (decimal_head (Z.to_N z)) as (d & s & Heq & Hd).
      rewrite Heq. cbn [app]. rewrite parse_scalar_digit by exact Hd.
      unfold parse_number. apply is_digit_bounds in Hd.
      destruct (N.eqb_spec d 45); [exfalso; lia|].
      change (d :: s ++ c :: rest) with ((d :: s) ++ c :: rest).
      rewrite <- Heq, parse_unsigned_decimal
        by (try assumption; unfold MAX_SAFE_INTEGER; lia).
      replace (Z.of_N (Z.to_N z)) with z by lia.
      apply number_safe.
  - (* a string *)
    simpl serialize. unfold QuoteJSONString.
    change (parse_scalar ((34 :: quote_body str ++ [34]) ++ c :: rest))
      with (result_map VStr (parse_string_body ((quote_body str ++ [34]) ++ c :: rest))).
    rewrite <- app_assoc. cbn [app]. now rewrite parse_quote_body.
Qed.

Lemma parse_elements_join (vs : list value) :
  forall (v : value) (fuel : nat) (rest : jstring),
    (length vs < fuel)%nat ->
    Forall (fun x => x <> VUndefined) (v :: vs) ->
    parse_elements fuel (join_comma (List.map serialize (v :: vs)) ++ 93 :: rest)
    = Ret (v :: vs, rest).
Proof.
  induction vs as [|w vs IH]; intros v fuel rest Hfuel Hall;
    destruct fuel as [|fuel]; try (simpl in Hfuel; lia);
    inversion Hall as [|? ? Hv Hall']; subst.
  - cbn [List.map join_comma parse_elements].
    rewrite skip_ws_serialize, parse_scalar_serialize by auto. reflexivity.
  - change (join_comma (List.map serialize (v :: w :: vs)))
      with (serialize v ++ 44 :: join_comma (List.map serialize (w :: vs))).
    rewrite <- app_assoc. cbn [app parse_elements].
    rewrite skip_ws_serialize, parse_scalar_serialize by auto.
    cbn [skip_ws is_json_space N.eqb Pos.eqb orb].
    change (44 =? 44) with true. cbv iota.
    rewrite IH by (simpl in Hfuel; auto; lia). reflexivity.
Qed.

Lemma join_comma_length (vs : list value) :
  (length vs <= length (join_comma (List.map serialize vs)))%nat.
Proof.
  induction vs as [|v vs IH]; [simpl; lia|].
  destruct (serialize_head v) as (c & s & Hs & _).
  destruct vs as [|w vs].
  - simpl. rewrite Hs. simpl. lia.
  - change (join_comma (List.map serialize (v :: w :: vs)))
      with (serialize v ++ 44 :: join_comma (List.map serialize (w :: vs))).
    rewrite length_app, Hs. simpl in *. lia.
Qed.

(** [JSON.parse(JSON.stringify(array))] is the array, for an array without
    [undefined]. *)
Lemma JSON_parse_stringify (vs : list value) :
  Forall (fun x => x <> VUndefined) vs ->
  JSON_parse (JSON_stringify vs) = Ret (JArray vs).
Proof.
  intros Hall. unfold JSON_parse, JSON_stringify.
  cbn [skip_ws is_json_space]. change (91 =? 91) with true.
  change (is_json_space 91) with false. cbv iota.
  destruct vs as [|v vs].
  - reflexivity.
  - unfold parse_array.
    destruct (serialize_head v) as (c & s & Hs & Hsp & H93).
    assert (Hskip : skip_ws (join_comma (List.map serialize (v :: vs)) ++ [93])
                    = c :: tl (join_comma (List.map serialize (v :: vs)) ++ [93])).
    { destruct vs; cbn [List.map join_comma]; rewrite Hs; simpl; now rewrite Hsp. }
    rewrite Hskip. destruct (N.eqb_spec c 93); [contradiction|].
    rewrite parse_elements_join; [reflexivity | | exact Hall].
    rewrite length_app. pose proof (join_comma_length (v :: vs)). simpl in *. lia.
Qed.

(** [new Set(array)] keeps an array without repetition as it is. *)
Lemma fold_Set_add_NoDup (items acc : list value) :
  NoDup (acc ++ items) -> fold_left Set_add items acc = acc ++ items.
Proof.
  revert acc. induction items as [|v items IH]; intros acc Hnd; simpl.
  - now rewrite app_nil_r.
  - assert (Hout : ~ In v acc).
    { apply NoDup_app in Hnd. destruct Hnd as (_ & Hdisj & _).
      intros Hin. apply (Hdisj v); [now apply list_elem_of_In | left]. }
    unfold Set_add at 2. apply Set_has_not_In in Hout. rewrite Hout.
    rewrite IH; rewrite <- app_assoc; [reflexivity | exact Hnd].
Qed.

Lemma Set_from_NoDup (items : list value) : NoDup items -> Set_from items = items.
Proof. intros H. unfold Set_from. now rewrite fold_Set_add_NoDup. Qed.

(** ** The fuel of [parse_array]

    Every sub-parser consumes what it returns: an element and the comma
    after it take at least two characters, so the rounds that
    [parse_array] allows are never used up. *)

Lemma result_map_Ret {A B : Type} (f : A -> B) (r : result (A * jstring))
    (b : B) (rest : jstring) :
  result_map f r = Ret (b, rest) -> exists a, r = Ret (a, rest) /\ b = f a.
Proof.
  destruct r as [[a rest']| |]; simpl; intros H; inversion H; subst. eauto.
Qed.

Lemma skip_ws_length (s : jstring) : (length (skip_ws s) <= length s)%nat.
Proof.
  induction s as [|c s IH]; simpl; [lia|].
  destruct (is_json_space c); simpl; lia.
Qed.

Lemma parse_string_body_length (s x rest : jstring) :
  parse_string_body s = Ret (x, rest) -> (length rest < length s)%nat.
Proof.
  remember (length s) as n eqn:Hn. revert s x rest Hn.
  induction n as [n IH] using lt_wf_ind. intros s x rest Hn H.
  destruct s as [|c s]; [discriminate|]. cbn [parse_string_body] in H.
  destruct (c =? 34).
  { inversion H; subst. simpl. lia. }
  destruct (c =? 92).
  - destruct s as [|e s]; [discriminate|].
    destruct (e =? 117).
    + destruct s as [|h1 [|h2 [|h3 [|h4 s]]]]; try discriminate.
      destruct (hex_value h1), (hex_value h2), (hex_value h3), (hex_value h4);
        try discriminate.
      apply result_map_Ret in H. destruct H as (a & H & _).
      apply (IH (length s)) in H; simpl in *; lia.
    + destruct (escape_char e); [|discriminate].
      apply result_map_Ret in H. destruct H as (a & H & _).
      apply (IH (length s)) in H; simpl in *; lia.
  - destruct (c <? 32); [discriminate|].
    apply result_map_Ret in H. destruct H as (a & H & _).
    apply (IH (length s)) in H; simpl in *; lia.
Qed.

Lemma read_digits_length (s : jstring) (u : Decimal.uint) (rest : jstring) :
  read_digits s = (u, rest) ->
  (length rest <= length s)%nat /\
  (u <> Decimal.Nil -> (length rest < length s)%nat).
Proof.
  revert u rest. induction s as [|c s IH]; simpl; intros u rest H.
  - inversion H; subst. split; [simpl; lia | congruence].
  - destruct (digit_of c) as [d|].
    + destruct (read_digits s) as [u' rest'] eqn:Hs. inversion H; subst.
      destruct (IH _ _ eq_refl) as [Hle _]. split; intros; lia.
    + inversion H; subst. split; [simpl; lia | congruence].
Qed.

Lemma parse_unsigned_length (s : jstring) (n : N) (rest : jstring) :
  parse_unsigned s = Ret (n, rest) -> (length rest < length s)%nat.
Proof.
  unfold parse_unsigned. destruct (read_digits s) as [u rest'] eqn:Hs.
  apply read_digits_length in Hs. destruct Hs as [_ Hlt].
  destruct u as [|d|d|d|d|d|d|d|d|d|d]; try discriminate;
    try (destruct (starts_fraction_or_exponent rest'); [discriminate|];
         match goal with |- context [if ?b then _ else _] => destruct b end;
         [discriminate|];
         intros H; inversion H; subst; apply Hlt; discriminate).
  destruct d; try discriminate.
  destruct (starts_fraction_or_exponent rest'); [discriminate|].
  match goal with |- context [if ?b then _ else _] => destruct b end;
    [discriminate|].
  intros H; inversion H; subst; apply Hlt; discriminate.
Qed.

Lemma number_Ret (z : Z) (rest : jstring) (v : value) (rest' : jstring) :
  number z rest = Ret (v, rest') -> rest' = rest.
Proof.
  unfold number. destruct (decide (Is_true (is_safe_integer z))); [|discriminate].
  now intros [= _ ->].
Qed.

Lemma parse_number_length (s : jstring) (v : value) (rest : jstring) :
  parse_number s = Ret (v, rest) -> (length rest < length s)%nat.
Proof.
  unfold parse_number. destruct s as [|c s]; [discriminate|].
  destruct (c =? 45); intros H.
  - destruct (parse_unsigned s) as [[n r]| |] eqn:Hn; try discriminate.
    apply number_Ret in H. subst. apply parse_unsigned_length in Hn. simpl. lia.
  - destruct (parse_unsigned (c :: s)) as [[n r]| |] eqn:Hn; try discriminate.
    apply number_Ret in H. subst. now apply parse_unsigned_length in Hn.
Qed.

Lemma expect_length (lit : jstring) (v v' : value) (s rest : jstring) :
  expect lit v s = Ret (v', rest) -> (length rest <= length s)%nat.
Proof.
  unfold expect. destruct (startsWith s lit); [|discriminate].
  intros H. inversion H; subst. rewrite length_skipn. lia.
Qed.

Lemma parse_scalar_length (s : jstring) (v : value) (rest : jstring) :
  parse_scalar s = Ret (v, rest) -> (length rest < length s)%nat.
Proof.
  unfold parse_scalar. destruct s as [|c s]; [discriminate|].
  destruct (c =? 34).
  { intros H. apply result_map_Ret in H. destruct H as (x & H & _).
    apply parse_string_body_length in H. simpl. lia. }
  destruct (c =? 110); [intros H; apply expect_length in H; simpl; lia|].
  destruct (c =? 116); [intros H; apply expect_length in H; simpl; lia|].
  destruct (c =? 102); [intros H; apply expect_length in H; simpl; lia|].
  destruct ((c =? 45) || is_digit c); [apply parse_number_length|].
  destruct ((c =? 91) || (c =? 123)); discriminate.
Qed.

Lemma parse_elements_fuel (fuel : nat) :
  forall (fuel' : nat) (s : jstring),
    (length s < 2 * fuel)%nat -> (length s < 2 * fuel')%nat ->
    parse_elements fuel s = parse_elements fuel' s.
Proof.
  induction fuel as [|fuel IH]; intros fuel' s H H'; [lia|].
  destruct fuel' as [|fuel']; [lia|]. cbn [parse_elements].
  destruct (parse_scalar (skip_ws s)) as [[v rest]| |] eqn:Hv; try reflexivity.
  apply parse_scalar_length in Hv. pose proof (skip_ws_length s) as Hs.
  pose proof (skip_ws_length rest) as Hr.
  destruct (skip_ws rest) as [|c rest']; [reflexivity|].
  destruct (c =? 44); [|reflexivity].
  rewrite (IH fuel' rest'); [reflexivity | simpl in *; lia..].
Qed.

(** More rounds than [parse_array] allows change nothing. *)
Lemma parse_array_fuel (s : jstring) (fuel : nat) :
  s <> [] -> (length s <= fuel)%nat ->
  parse_elements (length s) s = parse_elements fuel s.
Proof.
  intros Hs Hfuel. destruct s as [|c s]; [contradiction|].
  apply parse_elements_fuel; simpl in *; lia.
Qed.

(** ** The ownership set *)


Lemma Set_add_fresh (s : jsset) (v : value) : ~ In v s -> Set_add s v = s ++ [v].
Proof. intros H. unfold Set_add. apply Set_has_not_In in H. now rewrite H. Qed.

Lemma Set_delete_absent (s : jsset) (v : value) : ~ In v s -> Set_delete s v = s.
Proof.
  unfold Set_delete. induction s as [|x s IH]; intros H; simpl; [reflexivity|].
  destruct (strict_eq v x) eqn:Heq.
  - apply strict_eq_eq in Heq. subst. exfalso. apply H. now left.
  - simpl. rewrite IH; [reflexivity|]. intros Hin. apply H. now right.
Qed.

Lemma Set_delete_add (s : jsset) (v : value) :
  ~ In v s -> Set_delete (Set_add s v) v = s.
Proof.
  intros H. rewrite Set_add_fresh by exact H. unfold Set_delete.
  rewrite List.filter_app. simpl. rewrite strict_eq_refl. simpl.
  rewrite app_nil_r. now apply Set_delete_absent.
Qed.

Lemma Set_add_NoDup (s : jsset) (v : value) : NoDup s -> NoDup (Set_add s v).
Proof.
  intros H. unfold Set_add. destruct (Set_has s v) eqn:Hhas; [exact H|].
  apply Set_has_not_In in Hhas. apply NoDup_app. split; [exact H|]. split.
  - intros x Hx Hx'. apply list_elem_of_In in Hx. apply list_elem_of_In in Hx'.
    destruct Hx' as [<- | []]. contradiction.
  - apply NoDup_singleton.
Qed.



Lemma Set_delete_In (s : jsset) (v x : value) :
  In x (Set_delete s v) <-> In x s /\ x <> v.
Proof.
  unfold Set_delete. rewrite List.filter_In, negb_true_iff, strict_eq_neq.
  split; intros [? ?]; split; auto.
Qed.

Lemma Set_add_In (s : jsset) (v x : value) :
  In x (Set_add s v) <-> In x s \/ x = v.
Proof.
  unfold Set_add. destruct (Set_has s v) eqn:Hhas.
  - apply Set_has_In in Hhas. split; [now left | intros [?| ->]; assumption].
  - rewrite in_app_iff. simpl. split; intros [?|?]; auto.
    + destruct H; auto. contradiction.
Qed.

Lemma Set_from_is_NoDup (items : list value) : NoDup (Set_from items).
Proof.
  unfold Set_from. assert (H : NoDup (@nil value)) by constructor.
  revert H. generalize (@nil value). induction items as [|v items IH]; intros acc H.
  - exact H.
  - simpl. apply IH. now apply Set_add_NoDup.
Qed.

Lemma initial_ownedIds_stringify (owned : jsset) :
  NoDup owned -> ~ In VUndefined owned ->
  initial_ownedIds (Some (JSON_stringify (Set_values owned))) = Ret owned.
Proof.
  intros Hnd Hdef. unfold initial_ownedIds, Set_values.
  assert (Hall : Forall (fun x => x <> VUndefined) owned).
  { apply List.Forall_forall. intros x Hx ->. contradiction. }
  change (JSON_stringify owned)
    with (91 :: join_comma (List.map serialize owned) ++ [93]) at 1.
  cbv iota.
  change (91 :: join_comma (List.map serialize owned) ++ [93])
    with (JSON_stringify owned).
  rewrite JSON_parse_stringify by exact Hall. simpl.
  now rewrite Set_from_NoDup.
Qed.

(** What the change listener does to the ownership set and to its copy. *)
Lemma checkbox_change_ownership
    (lower : jstring -> jstring) (recipe : recipe) (checked : bool) (st : state) :
  ownedIds (snd (checkbox_change lower recipe checked st))
  = (if checked then Set_add (ownedIds st) (id recipe)
     else Set_delete (ownedIds st) (id recipe)) /\
  localStorage (snd (checkbox_change lower recipe checked st))
  = <[STORAGE_KEY :=
        JSON_stringify
          (Set_values (ownedIds (snd (checkbox_change lower recipe checked st))))]>
      (localStorage st).
Proof.
  unfold checkbox_change, bind, saveOwned, renderStats, assign, read.
  destruct checked; simpl;
    match goal with
    | |- context [getFilteredRecipes ?l ?s] => destruct (getFilteredRecipes l s)
    end; simpl; split; reflexivity.
Qed.

(** ** Statements that leave the ownership set alone *)

Lemma keeps_ret {A : Type} (a : A) : keeps_ownedIds (ret a).
Proof. intros st. reflexivity. Qed.

Lemma keeps_throw {A : Type} (e : error) : keeps_ownedIds (@throw A e).
Proof. intros st. reflexivity. Qed.

Lemma keeps_read {A : Type} (f : state -> A) : keeps_ownedIds (read f).
Proof. intros st. reflexivity. Qed.

Lemma keeps_lift {A : Type} (o : outcome A) : keeps_ownedIds (lift o).
Proof. intros st. reflexivity. Qed.

Lemma keeps_pure {A : Type} (f : state -> outcome A) :
  keeps_ownedIds (fun st => (f st, st)).
Proof. intros st. reflexivity. Qed.

Lemma keeps_assign (f : state -> state) :
  (forall st, ownedIds (f st) = ownedIds st) -> keeps_ownedIds (assign f).
Proof. intros H st. apply H. Qed.

Lemma keeps_bind {A B : Type} (m : M A) (k : A -> M B) :
  keeps_ownedIds m -> (forall a, keeps_ownedIds (k a)) -> keeps_ownedIds (bind m k).
Proof.
  intros Hm Hk st. unfold bind. specialize (Hm st).
  destruct (m st) as [[a|e] st']; simpl in *.
  - now rewrite Hk.
  - exact Hm.
Qed.

Lemma keeps_try_catch {A : Type} (body : M A) (handler : error -> M A) :
  keeps_ownedIds body -> (forall e, keeps_ownedIds (handler e)) ->
  keeps_ownedIds (try_catch body handler).
Proof.
  intros Hm Hk st. unfold try_catch. specialize (Hm st).
  destruct (body st) as [[a|e] st']; simpl in *.
  - exact Hm.
  - now rewrite Hk.
Qed.

Lemma keeps_for_of {A : Type} (l : list A) (body : A -> M unit) :
  (forall x, keeps_ownedIds (body x)) -> keeps_ownedIds (for_of l body).
Proof.
  intros H. induction l as [|x l IH]; simpl.
  - apply keeps_ret.
  - apply keeps_bind; [apply H | intros _; exact IH].
Qed.

Create HintDb keeps discriminated.
#[local] Hint Resolve keeps_ret keeps_throw keeps_read keeps_lift keeps_pure
  keeps_bind keeps_try_catch keeps_for_of : keeps.

Lemma keeps_renderStats (visible : list recipe) : keeps_ownedIds (renderStats visible).
Proof.
  unfold renderStats. apply keeps_bind; [apply keeps_read|].
  intros owned. now apply keeps_assign.
Qed.

Lemma keeps_renderRecipes (lower : jstring -> jstring) :
  keeps_ownedIds (renderRecipes lower).
Proof.
  unfold renderRecipes.
  apply keeps_bind; [apply keeps_pure | intros visible].
  apply keeps_bind; [now apply keeps_assign | intros _].
  apply keeps_bind; [apply keeps_renderStats | intros _].
  apply keeps_for_of. intros r.
  apply keeps_bind; [apply keeps_read | intros owned]. now apply keeps_assign.
Qed.

Lemma keeps_loadRecipes (env : page) : keeps_ownedIds (loadRecipes env).
Proof.
  unfold loadRecipes, fetch.
  destruct (jstring_eqb _ _); [apply keeps_throw|].
  apply keeps_bind.
  - apply keeps_bind; [now apply keeps_assign | intros _].
    destruct (network env _); auto with keeps.
  - intros res. destruct (negb (ok res)); [apply keeps_throw|].
    apply keeps_bind; [apply keeps_lift | intros parsed]. now apply keeps_assign.
Qed.

Lemma keeps_init (lower : jstring -> jstring) (env : page) :
  keeps_ownedIds (init lower env).
Proof.
  unfold init, bindEvents. apply keeps_try_catch.
  - apply keeps_bind; [apply keeps_loadRecipes | intros _].
    apply keeps_bind; [now apply keeps_assign | intros _].
    apply keeps_renderRecipes.
  - intros e. apply keeps_bind; [now apply keeps_assign | intros _].
    now apply keeps_assign.
Qed.




(** ** Rendering *)

Lemma for_of_cards (visible : list recipe) (st : state) :
  for_of visible
    (fun recipe =>
       bind (read ownedIds) (fun owned =>
         assign (fun st0 =>
           set_recipeGrid (recipeGrid st0 ++ [CardNode (render_card owned recipe)]) st0)))
    st
  = (Ok tt,
     set_recipeGrid
       (recipeGrid st
        ++ List.map (fun r => CardNode (render_card (ownedIds st) r)) visible) st).
Proof.
  revert st. induction visible as [|r visible IH]; intros st.
  - simpl. unfold ret. rewrite app_nil_r. now destruct st.
  - cbn [for_of]. unfold bind at 1. unfold bind at 1. unfold read, assign.
    rewrite IH. simpl. rewrite <- app_assoc. reflexivity.
Qed.

Lemma renderRecipes_cards (lower : jstring -> jstring) (st : state)
    (visible : list recipe) :
  getFilteredRecipes lower st = Ok visible ->
  renderRecipes lower st
  = (Ok tt,
     set_recipeGrid
       (List.map (fun r => CardNode (render_card (ownedIds st) r)) visible)
       (set_stats_textContent
          (stats_line (length visible) (ownedCount (ownedIds st) visible)) st)).
Proof.
  intros Hvis. unfold renderRecipes.
  unfold bind at 1. rewrite Hvis.
  unfold bind at 1. unfold assign at 1.
  unfold bind at 1. unfold renderStats, bind at 1, read, assign.
  rewrite for_of_cards. reflexivity.
Qed.

Lemma renderRecipes_throws (lower : jstring -> jstring) (st : state) (e : error) :
  getFilteredRecipes lower st = Throw e ->
  renderRecipes lower st = (Throw e, st).
Proof. intros H. unfold renderRecipes, bind. now rewrite H. Qed.

(** ** The states of the page *)

Lemma lookup_cards (owned : jsset) (visible : list recipe) (i : nat) (c : card) :
  List.map (fun r => CardNode (render_card owned r)) visible !! i = Some (CardNode c) ->
  exists r, visible !! i = Some r /\ c = render_card owned r.
Proof.
  revert i. induction visible as [|r visible IH]; intros i H; [discriminate|].
  destruct i as [|i]; simpl in H.
  - inversion H. now exists r.
  - now apply IH.
Qed.

Lemma rendered_consistent (visible : list recipe) (line : jstring) (st : state) :
  checkboxes_consistent
    (set_recipeGrid
       (List.map (fun r => CardNode (render_card (ownedIds st) r)) visible)
       (set_stats_textContent line st)).
Proof.
  intros i c H. simpl in H. apply lookup_cards in H.
  destruct H as (r & _ & ->). reflexivity.
Qed.

Lemma error_paragraph_consistent (e : error) (st : state) :
  checkboxes_consistent (set_recipeGrid [ErrorParagraph e] st).
Proof. intros [|i] c H; simpl in H; discriminate. Qed.


(** [init] leaves a grid whose checkboxes agree with the ownership set:
    the cards it rendered, or the paragraph of the error. *)
Lemma init_consistent (lower : jstring -> jstring) (env : page) (st : state) :
  checkboxes_consistent (snd (init lower env st)).
Proof.
  unfold init, try_catch, bindEvents. unfold bind at 1.
  destruct (loadRecipes env st) as [[[]|e] st1].
  - unfold bind at 1. unfold assign at 1.
    destruct (getFilteredRecipes lower (set_listeners (S (listeners st1)) st1))
      as [visible|e] eqn:Hvis.
    + rewrite (renderRecipes_cards _ _ _ Hvis). apply rendered_consistent.
    + rewrite (renderRecipes_throws _ _ _ Hvis). apply error_paragraph_consistent.
  - apply error_paragraph_consistent.
Qed.

Lemma checkbox_click_eq (lower : jstring -> jstring) (st : state) (i : nat) :
  checkbox_click lower i st
  = match recipeGrid st !! i with
    | Some (CardNode c) =>
        checkbox_change lower (card_recipe c) (negb (checkbox_checked c))
          (set_recipeGrid
             (<[i := CardNode (set_checkbox_checked (negb (checkbox_checked c)) c)]>
                (recipeGrid st)) st)
    | _ => (Ok tt, st)
    end.
Proof.
  unfold checkbox_click, bind at 1, read.
  destruct (recipeGrid st !! i) as [[c|e]|]; reflexivity.
Qed.




Lemma truthy_absent (v : value) : truthy v = false <-> absent v.
Proof.
  unfold absent. destruct v as [| |[|]|z safe|[|c s]]; simpl;
    try (split; [auto 6 | reflexivity]);
    try (split; [discriminate | intros [H|[H|[H|[H|H]]]]; discriminate H]).
  split.
  - intros H. apply negb_false_iff, Z.eqb_eq in H.
    do 4 right. now apply VNum_eq.
  - intros [H|[H|[H|[H|H]]]]; try discriminate H.
    injection H as ->. reflexivity.
Qed.

Lemma truthy_present (v : value) : truthy v = true <-> present v.
Proof.
  unfold present. rewrite <- truthy_absent. destruct (truthy v); split; congruence.
Qed.

Lemma present_or_absent (v : value) : present v \/ absent v.
Proof.
  destruct (truthy v) eqn:H;
    [left; now apply truthy_present | right; now apply truthy_absent].
Qed.

Lemma or_else_present (a b : value) : present a -> or_else a b = a.
Proof. intros H. apply truthy_present in H. unfold or_else. now rewrite H. Qed.

Lemma or_else_absent (a b : value) : absent a -> or_else a b = b.
Proof. intros H. apply truthy_absent in H. unfold or_else. now rewrite H. Qed.

(** C8.  The card of a recipe is a projection of its fields.  The primary
    name is [name_ko] when that field is present and [name_en] when it is
    absent; the category label is [category_ko]; materials and source show
    the Korean text when present, else the English text when present, else
    "-"; the image source is [image_url] when present and the empty string
    when absent; the checkbox is checked exactly when the id is in the
    ownership set.  A field is either present or absent, absent meaning
    missing, [null], empty, [false] or zero, so the cases cover every
    recipe; and once the filter has returned, rendering returns normally
    with one such card per visible recipe. *)
Theorem C8_card_is_projection (owned : jsset) (r : recipe) :
  (present (name_ko r) ->
   nameKo_textContent (render_card owned r) = name_ko r) /\
  (absent (name_ko r) ->
   nameKo_textContent (render_card owned r) = name_en r) /\
  category_textContent (render_card owned r) = category_ko r /\
  (present (materials_ko r) ->
   materials_textContent (render_card owned r) = materials_ko r) /\
  (absent (materials_ko r) -> present (materials_en r) ->
   materials_textContent (render_card owned r) = materials_en r) /\
  (absent (materials_ko r) -> absent (materials_en r) ->
   materials_textContent (render_card owned r) = VStr (js "-")) /\
  (present (source_ko r) ->
   source_textContent (render_card owned r) = source_ko r) /\
  (absent (source_ko r) -> present (source_en r) ->
   source_textContent (render_card owned r) = source_en r) /\
  (absent (source_ko r) -> absent (source_en r) ->
   source_textContent (render_card owned r) = VStr (js "-")) /\
  (present (image_url r) -> img_src (render_card owned r) = image_url r) /\
  (absent (image_url r) -> img_src (render_card owned r) = VStr []) /\
  (checkbox_checked (render_card owned r) = true <-> In (id r) owned) /\
  (forall v : value, present v \/ absent v) /\
  (forall (c : N) (s : jstring), present (VStr (c :: s))) /\
  (forall (lower : jstring -> jstring) (st : state) (visible : list recipe),
     getFilteredRecipes lower st = Ok visible ->
     fst (renderRecipes lower st) = Ok tt /\
     recipeGrid (snd (renderRecipes lower st))
     = List.map (fun x => CardNode (render_card (ownedIds st) x)) visible).
Proof.
  cbn [render_card nameKo_textContent category_textContent materials_textContent
       source_textContent img_src checkbox_checked].
  split; [intros H; now apply or_else_present|].
  split; [intros H; now apply or_else_absent|].
  split; [reflexivity|].
  split; [intros H; now rewrite (or_else_present _ _ H), (or_else_present _ _ H)|].
  split; [intros H H'; now rewrite (or_else_absent _ _ H), (or_else_present _ _ H')|].
  split; [intros H H'; now rewrite (or_else_absent _ _ H), (or_else_absent _ _ H')|].
  split; [intros H; now rewrite (or_else_present _ _ H), (or_else_present _ _ H)|].
  split; [intros H H'; now rewrite (or_else_absent _ _ H), (or_else_present _ _ H')|].
  split; [intros H H'; now rewrite (or_else_absent _ _ H), (or_else_absent _ _ H')|].
  split; [intros H; now apply or_else_present|].
  split; [intros H; now apply or_else_absent|].
  split; [apply Set_has_In|].
  split; [exact present_or_absent|].
  split; [intros c s [H|[H|[H|[H|H]]]]; discriminate H|].
  intros lower st visible H. now rewrite (renderRecipes_cards _ _ _ H).
Qed.


(** Whatever [loadRecipes] throws is caught by [init], which shows the
    failure in place of the catalog. *)
Lemma init_load_failure (lower : jstring -> jstring) (env : page) (st : state)
    (e : error) :
  fst (loadRecipes env st) = Throw e ->
  fst (init lower env st) = Ok tt /\
  stats_textContent (snd (init lower env st)) = js "데이터 로딩 실패" /\
  recipeGrid (snd (init lower env st)) = [ErrorParagraph e].
Proof.
  intros H. unfold init, try_catch, bind, assign.
  destruct (loadRecipes env st) as [[[]|e'] st']; simpl in *; [discriminate|].
  inversion H; subst. repeat split.
Qed.

(** C6, as stated for every set of ids, fails for the id [undefined]: the
    box of a recipe without an id puts [undefined] into the set,
    [JSON.stringify] writes it as [null], and line 6 reads the stored text
    back as the set that holds [null]. *)
Lemma C6_undefined_id_counterexample :
  id unnumbered = VUndefined /\
  ownedIds (snd (checkbox_change ascii_toLowerCase unnumbered true
                   (sample_state (js "all") [] [])))
  = [VUndefined] /\
  localStorage (snd (checkbox_change ascii_toLowerCase unnumbered true
                       (sample_state (js "all") [] []))) !! STORAGE_KEY
  = Some (js "[null]") /\
  JSON_stringify (Set_values [VUndefined]) = js "[null]" /\
  initial_ownedIds (Some (JSON_stringify (Set_values [VUndefined]))) = Ret [VNull] /\
  ~ (forall owned : jsset,
       NoDup owned ->
       initial_ownedIds (Some (JSON_stringify (Set_values owned))) = Ret owned).
Proof.
  split; [reflexivity|]. split; [vm_compute; reflexivity|].
  split; [vm_compute; reflexivity|]. split; [vm_compute; reflexivity|].
  split; [vm_compute; reflexivity|].
  intros H. specialize (H [VUndefined]).
  assert (Hnd : NoDup [VUndefined]) by (apply NoDup_singleton).
  specialize (H Hnd). vm_compute in H. discriminate H.
Qed.

(** C6.  A set of ids without [undefined] (strings, safe integers,
    booleans, [null]), written by [saveOwned] and read back the way line 6
    does, comes back as the same ids in the same order, whichever order
    they were inserted in; and checking then unchecking the box of a
    recipe that was not owned leaves the set and its stored text as
    [saveOwned] writes them for the original set. *)
Theorem C6_persist_reload_roundtrip (owned : jsset) :
  NoDup owned -> ~ In VUndefined owned ->
  initial_ownedIds (Some (JSON_stringify (Set_values owned))) = Ret owned /\
  (forall st, ownedIds st = owned ->
     initial_ownedIds (localStorage (snd (saveOwned st)) !! STORAGE_KEY) = Ret owned) /\
  (forall reordered, reordered ≡ₚ owned ->
     initial_ownedIds (Some (JSON_stringify (Set_values reordered))) = Ret reordered /\
     (forall v, In v reordered <-> In v owned)) /\
  (forall v, ~ In v owned -> Set_delete (Set_add owned v) v = owned) /\
  (forall (lower : jstring -> jstring) (st : state) (r : recipe),
     ownedIds st = owned -> ~ In (id r) owned ->
     ownedIds (snd (checkbox_change lower r false (snd (checkbox_change lower r true st))))
     = owned /\
     localStorage
       (snd (checkbox_change lower r false (snd (checkbox_change lower r true st))))
     = localStorage (snd (saveOwned st)) /\
     localStorage
       (snd (checkbox_change lower r false (snd (checkbox_change lower r true st))))
       !! STORAGE_KEY
     = Some (JSON_stringify (Set_values owned))).
Proof.
  intros Hnd Hdef. split; [|split; [|split; [|split]]].
  - now apply initial_ownedIds_stringify.
  - intros st <-. unfold saveOwned, assign. simpl. rewrite lookup_insert_eq.
    now apply initial_ownedIds_stringify.
  - intros reordered Hperm. split.
    + apply initial_ownedIds_stringify.
      * now rewrite Hperm.
      * rewrite <- list_elem_of_In, Hperm, list_elem_of_In. exact Hdef.
    + intros v. rewrite <- !list_elem_of_In. now rewrite Hperm.
  - intros v. apply Set_delete_add.
  - intros lower st r <- Hout.
    destruct (checkbox_change_ownership lower r true st) as [Ho1 Hs1].
    destruct (checkbox_change_ownership lower r false
                (snd (checkbox_change lower r true st))) as [Ho2 Hs2].
    rewrite Ho1 in Ho2. rewrite Set_delete_add in Ho2 by exact Hout.
    rewrite Hs2, Ho2, Hs1, insert_insert_eq.
    split; [reflexivity|]. split; [reflexivity|]. apply lookup_insert_eq.
Qed.



(** C3 (amended).  When the entry is absent or is the empty string,
    line 6 gives the empty set and the script goes on to [init] with it.
    When the stored text cannot be parsed, line 6 throws the SyntaxError
    of [JSON.parse]; nothing catches it, so the script ends there, before
    [init]. *)
Theorem C3_load_of_stored_entry (lower : jstring -> jstring) (env : page) :
  (storage env !! STORAGE_KEY = None \/ storage env !! STORAGE_KEY = Some [] ->
   initial_ownedIds (storage env !! STORAGE_KEY) = Ret [] /\
   exists st, script lower env = Ret st /\ ownedIds st = []) /\
  (forall text e,
     storage env !! STORAGE_KEY = Some text -> text <> [] ->
     JSON_parse text = Exn e ->
     initial_ownedIds (storage env !! STORAGE_KEY) = Exn e /\
     script lower env = Exn e).
Proof.
  split.
  - intros Hstored.
    assert (Hinit : initial_ownedIds (storage env !! STORAGE_KEY) = Ret [])
      by (destruct Hstored as [-> | ->]; reflexivity).
    split; [exact Hinit|]. unfold script. rewrite Hinit.
    eexists. split; [reflexivity|]. now rewrite keeps_init.
  - intros text e Hstored Hne Hparse.
    assert (Hinit : initial_ownedIds (storage env !! STORAGE_KEY) = Exn e).
    { rewrite Hstored. unfold initial_ownedIds.
      destruct text as [|c text]; [contradiction|]. now rewrite Hparse. }
    split; [exact Hinit|]. unfold script. now rewrite Hinit.
Qed.

(** ** The properties at concrete inputs *)

Lemma sample_names : Forall has_string_names [fish; cake].
Proof. repeat constructor; eexists; reflexivity. Defined.

(** The specification's predicate does not describe the filter: with a
    single space in the search box the keyword is empty and both sample
    recipes are visible, although neither name contains a space. *)
Lemma C1_untrimmed_text_counterexample :
  ~ (forall r visible,
       getFilteredRecipes ascii_toLowerCase (searching " ") = Ok visible ->
       (In r visible <->
        In r (allRecipes (searching " ")) /\
        visible_as_specified ascii_toLowerCase
          (currentCategory (searching " ")) (searchText (searching " ")) r)).
Proof.
  intros H.
  assert (Hvis : getFilteredRecipes ascii_toLowerCase (searching " ")
                 = Ok [fish; cake]) by (vm_compute; reflexivity).
  destruct (H fish _ Hvis) as [Hclaim _].
  destruct (Hclaim (or_introl eq_refl))
    as (_ & _ & [Habs | [(ko & Heq & Hsub) | (en & Heq & Hsub)]]).
  - vm_compute in Habs. discriminate.
  - inversion Heq; subst ko. apply includes_spec in Hsub.
    vm_compute in Hsub. discriminate.
  - inversion Heq; subst en. apply includes_spec in Hsub.
    vm_compute in Hsub. discriminate.
Qed.

Lemma C1_witness :
  Forall has_string_names (allRecipes (searching " fIsh ")) /\
  exists visible,
    getFilteredRecipes ascii_toLowerCase (searching " fIsh ") = Ok visible /\
    forall r,
      In r visible <->
      In r (allRecipes (searching " fIsh ")) /\
      (currentCategory (searching " fIsh ") = js "all" \/
       category_en r = VStr (currentCategory (searching " fIsh "))) /\
      (ascii_toLowerCase (trim (searchText (searching " fIsh "))) = [] \/
       (exists ko, name_ko r = VStr ko /\
          substring_of (ascii_toLowerCase (trim (searchText (searching " fIsh "))))
                       (ascii_toLowerCase ko)) \/
       (exists en, name_en r = VStr en /\
          substring_of (ascii_toLowerCase (trim (searchText (searching " fIsh "))))
                       (ascii_toLowerCase en))).
Proof.
  split; [exact sample_names|].
  exact (C1_visible_iff_trimmed_keyword ascii_toLowerCase (searching " fIsh ")
           sample_names).
Defined.

Lemma C2_witness :
  exists visible,
    getFilteredRecipes ascii_toLowerCase (searching " fIsh ") = Ok visible /\
    visible `sublist_of` allRecipes (searching " fIsh ") /\
    (forall r, In r visible -> In r (allRecipes (searching " fIsh "))) /\
    (exists positions : list nat,
       StronglySorted lt positions /\
       Forall2 (fun i r => allRecipes (searching " fIsh ") !! i = Some r)
               positions visible) /\
    (NoDup (allRecipes (searching " fIsh ")) -> NoDup visible).
Proof.
  destruct (C2_visible_is_subsequence ascii_toLowerCase (searching " fIsh "))
    as [Hreturns Hsub].
  destruct (Hreturns (or_intror sample_names)) as (visible & Hvis).
  exists visible. split; [exact Hvis | exact (Hsub visible Hvis)].
Defined.

(** A stored entry that was cut short: line 6 throws, the script ends
    with the SyntaxError, and no ownership set, empty or not, results. *)
Lemma C3_corrupt_entry_counterexample :
  initial_ownedIds (storage corrupt_page !! STORAGE_KEY) = Exn SyntaxError /\
  script ascii_toLowerCase corrupt_page = Exn SyntaxError /\
  ~ (exists st, script ascii_toLowerCase corrupt_page = Ret st /\ ownedIds st = []).
Proof.
  assert (Hentry : storage corrupt_page !! STORAGE_KEY = Some (js "[1,2"))
    by apply lookup_singleton_eq.
  assert (Hinit : initial_ownedIds (storage corrupt_page !! STORAGE_KEY)
                  = Exn SyntaxError) by (rewrite Hentry; vm_compute; reflexivity).
  assert (Hscript : script ascii_toLowerCase corrupt_page = Exn SyntaxError)
    by (unfold script; now rewrite Hinit).
  split; [exact Hinit|]. split; [exact Hscript|].
  intros (st & Hst & _). rewrite Hscript in Hst. discriminate.
Qed.

Lemma C3_witness :
  (storage fresh_page !! STORAGE_KEY = None /\
   initial_ownedIds (storage fresh_page !! STORAGE_KEY) = Ret [] /\
   exists st, script ascii_toLowerCase fresh_page = Ret st /\ ownedIds st = []) /\
  (storage corrupt_page !! STORAGE_KEY = Some (js "[1,2") /\
   js "[1,2" <> [] /\
   JSON_parse (js "[1,2") = Exn SyntaxError /\
   script ascii_toLowerCase corrupt_page = Exn SyntaxError).
Proof.
  assert (Hfresh : storage fresh_page !! STORAGE_KEY = None) by apply lookup_empty.
  assert (Hentry : storage corrupt_page !! STORAGE_KEY = Some (js "[1,2"))
    by apply lookup_singleton_eq.
  assert (Hne : js "[1,2" <> []) by (vm_compute; discriminate).
  assert (Hparse : JSON_parse (js "[1,2") = Exn SyntaxError)
    by (vm_compute; reflexivity).
  split.
  - split; [exact Hfresh|].
    exact (proj1 (C3_load_of_stored_entry ascii_toLowerCase fresh_page)
             (or_introl Hfresh)).
  - split; [exact Hentry|]. split; [exact Hne|]. split; [exact Hparse|].
    exact (proj2 (proj2 (C3_load_of_stored_entry ascii_toLowerCase corrupt_page)
                    (js "[1,2") SyntaxError Hentry Hne Hparse)).
Defined.

Lemma C5_witness :
  getFilteredRecipes ascii_toLowerCase (searching "cake") = Ok [cake] /\
  getFilteredRecipes ascii_toLowerCase
    (snd (checkbox_change ascii_toLowerCase fish true (searching "cake")))
  = getFilteredRecipes ascii_toLowerCase (searching "cake") /\
  stats_textContent
    (snd (checkbox_change ascii_toLowerCase fish true (searching "cake")))
  = stats_line (length [cake])
      (ownedCount
         (ownedIds (snd (checkbox_change ascii_toLowerCase fish true (searching "cake"))))
         [cake]).
Proof.
  assert (Hvis : getFilteredRecipes ascii_toLowerCase (searching "cake") = Ok [cake])
    by (vm_compute; reflexivity).
  pose proof (C5_toggle_keeps_visible_subset ascii_toLowerCase fish true
                (searching "cake")) as (_ & _ & _ & _ & _ & _ & _ & Hsame & Hstats).
  split; [exact Hvis|]. split; [exact Hsame | exact (Hstats [cake] Hvis)].
Defined.

Lemma owned_A_C_NoDup : NoDup [VStr (js "A"); VStr (js "C")].
Proof. apply (bool_decide_unpack _). vm_compute. exact I. Defined.

Lemma owned_A_C_defined : ~ In VUndefined [VStr (js "A"); VStr (js "C")].
Proof. intros [H | [H | []]]; discriminate H. Defined.

Lemma C6_witness :
  initial_ownedIds
    (Some (JSON_stringify (Set_values [VStr (js "A"); VStr (js "C")])))
  = Ret [VStr (js "A"); VStr (js "C")] /\
  Set_delete (Set_add [VStr (js "A"); VStr (js "C")] (VNum 2 I)) (VNum 2 I)
  = [VStr (js "A"); VStr (js "C")].
Proof.
  pose proof (C6_persist_reload_roundtrip [VStr (js "A"); VStr (js "C")]
                owned_A_C_NoDup owned_A_C_defined) as (Hload & _ & _ & Htoggle & _).
  split; [exact Hload|]. apply Htoggle.
  intros [H | [H | []]]; discriminate H.
Defined.


Ltac field_is_filled :=
  let H := fresh in
  intros [H|[H|[H|[H|H]]]]; vm_compute in H; discriminate H.

(** The pie has every field, the tart falls back to its English texts, the
    cake has neither materials nor source nor image. *)
Lemma C8_witness :
  nameKo_textContent (render_card [VNum 4 I] pie) = VStr (js "파이") /\
  materials_textContent (render_card [VNum 4 I] pie) = VStr (js "밀가루 3개") /\
  source_textContent (render_card [VNum 4 I] pie) = VStr (js "엄마") /\
  img_src (render_card [VNum 4 I] pie) = VStr (js "img/pie.png") /\
  checkbox_checked (render_card [VNum 4 I] pie) = true /\
  nameKo_textContent (render_card [VNum 4 I] tart) = VStr (js "Tart") /\
  materials_textContent (render_card [VNum 4 I] tart) = VStr (js "2x sugar") /\
  source_textContent (render_card [VNum 4 I] tart) = VStr (js "Balloons") /\
  img_src (render_card [VNum 4 I] tart) = VStr [] /\
  checkbox_checked (render_card [VNum 4 I] tart) <> true /\
  materials_textContent (render_card [VNum 4 I] cake) = VStr (js "-") /\
  source_textContent (render_card [VNum 4 I] cake) = VStr (js "-") /\
  img_src (render_card [VNum 4 I] cake) = VStr [] /\
  recipeGrid (snd (renderRecipes ascii_toLowerCase (searching "cake")))
  = [CardNode (render_card [] cake)].
Proof.
  pose proof (C8_card_is_projection [VNum 4 I] pie)
    as (Pname & _ & _ & Pmat & _ & _ & Psrc & _ & _ & Pimg & _ & Pbox & _).
  pose proof (C8_card_is_projection [VNum 4 I] tart)
    as (_ & Tname & _ & _ & Tmat & _ & _ & Tsrc & _ & _ & Timg & Tbox & _).
  pose proof (C8_card_is_projection [VNum 4 I] cake)
    as (_ & _ & _ & _ & _ & Cmat & _ & _ & Csrc & _ & Cimg & _ & _ & _ & Cgrid).
  split; [apply Pname; field_is_filled|].
  split; [apply Pmat; field_is_filled|].
  split; [apply Psrc; field_is_filled|].
  split; [apply Pimg; field_is_filled|].
  split; [apply Pbox; left; reflexivity|].
  split; [apply Tname; right; right; left; reflexivity|].
  split; [apply Tmat; [left; reflexivity | field_is_filled]|].
  split; [apply Tsrc; [right; left; reflexivity | field_is_filled]|].
  split; [apply Timg; right; right; left; reflexivity|].
  split; [intros H; apply Tbox in H; destruct H as [H | []]; discriminate H|].
  split; [apply Cmat; left; reflexivity|].
  split; [apply Csrc; left; reflexivity|].
  split; [apply Cimg; left; reflexivity|].
  assert (Hvis : getFilteredRecipes ascii_toLowerCase (searching "cake") = Ok [cake])
    by (vm_compute; reflexivity).
  exact (proj2 (Cgrid ascii_toLowerCase (searching "cake") [cake] Hvis)).
Defined.

Lemma twin_loaded_reachable : reachable ascii_toLowerCase twin_page twin_loaded.
Proof. apply reachable_script. vm_compute. reflexivity. Defined.


Lemma C10_witness :
  exists visibleCount owned_count : nat,
    stats_textContent (snd (renderStats [] (searching "cake")))
    = stats_line visibleCount owned_count /\
    owned_count = 0%nat.
Proof.
  destruct (C10_owned_count_at_most_visible [] (searching "cake"))
    as (v & o & Hline & _ & _ & _ & Hzero).
  exists v, o. split; [exact Hline | exact (Hzero eq_refl)].
Defined.

(** ** The scenarios of the specification, run on the model *)

Example js_literal_hangul :
  js "표시 2개" = [0xD45C; 0xC2DC; 0x20; 0x32; 0xAC1C].
Proof. reflexivity. Qed.

Example trim_both_ends : trim (js "  Fish cake	") = js "Fish cake".
Proof. reflexivity. Qed.

(** An array with a string holding a quote, a line feed and a lone
    surrogate: all three are escaped, and [undefined] is written null. *)
Example stringify_escapes :
  JSON_stringify [VNum 1 I; VStr [97; 34; 10; 0xD800]; VUndefined; VNum (-20) I]
  = [91; 49; 44; 34; 97; 92; 34; 92; 110; 92; 117; 100; 56; 48; 48; 34; 44;
     110; 117; 108; 108; 44; 45; 50; 48; 93].
Proof. reflexivity. Qed.

Example parse_outcomes :
  JSON_parse (js " [ 1 , 2 ] ") = Ret (JArray [VNum 1 I; VNum 2 I]) /\
  JSON_parse (js "[1,]") = Exn SyntaxError /\
  JSON_parse (js "[01]") = Exn SyntaxError /\
  JSON_parse (js "nul") = Exn SyntaxError /\
  JSON_parse (js "[1.5]") = Unmodelled /\
  JSON_parse (js "[[1]]") = Unmodelled.
Proof. repeat split; reflexivity. Qed.

(** The largest safe integer is read exactly; a literal above it, which
    [JSON.parse] rounds, and a number with an exponent are left out. *)
Example parse_safe_integers :
  JSON_parse (js "[9007199254740991]") = Ret (JArray [VNum 9007199254740991 I]) /\
  JSON_parse (js "[-9007199254740991]") = Ret (JArray [VNum (-9007199254740991) I]) /\
  JSON_stringify [VNum (-9007199254740991) I] = js "[-9007199254740991]" /\
  JSON_parse (js "[9007199254740992]") = Unmodelled /\
  JSON_parse (js "[9007199254740993]") = Unmodelled /\
  JSON_parse (js "[-9007199254740993]") = Unmodelled /\
  JSON_parse (js "[1e+21]") = Unmodelled.
Proof. repeat split; reflexivity. Qed.

Example initial_ownedIds_outcomes :
  initial_ownedIds None = Ret [] /\
  initial_ownedIds (Some (js "[2,1,2]")) = Ret [VNum 2 I; VNum 1 I] /\
  initial_ownedIds (Some (js "null")) = Ret [] /\
  initial_ownedIds (Some (js "5")) = Exn TypeError.
Proof. repeat split; reflexivity. Qed.

(** Scenario 7: category Dessert, nothing owned. *)
Example scenario_dessert :
  getFilteredRecipes ascii_toLowerCase (sample_state (js "Dessert") [] []) = Ok [cake] /\
  stats_textContent
    (snd (renderRecipes ascii_toLowerCase (sample_state (js "Dessert") [] [])))
  = js "표시 1개 | 보유 0개".
Proof. split; reflexivity. Qed.

(** Scenario 8: both recipes owned, every category shown. *)
Example scenario_all_owned :
  stats_textContent
    (snd (renderRecipes ascii_toLowerCase (sample_state (js "all") [] [VNum 1 I; VNum 2 I])))
  = js "표시 2개 | 보유 2개".
Proof. reflexivity. Qed.

(** Scenario 10: id 2 toggled on, then off. *)
Example scenario_toggle_on_off :
  ownedIds
    (snd (checkbox_change ascii_toLowerCase cake false
            (snd (checkbox_change ascii_toLowerCase cake true
                    (sample_state (js "all") [] [VNum 1 I])))))
  = [VNum 1 I].
Proof. reflexivity. Qed.

(** A recipe without [name_ko] stops the filter as soon as there is a
    keyword, and is filtered like any other while the keyword is empty. *)
Example filter_on_missing_name :
  getFilteredRecipes ascii_toLowerCase
    (set_allRecipes
       [{| id := VNum 3 I; name_en := VStr (js "Soup"); name_ko := VUndefined;
           category_en := VStr (js "Food"); category_ko := VUndefined;
           image_url := VUndefined; source_url := VUndefined;
           materials_en := VUndefined; materials_ko := VUndefined;
           source_en := VUndefined; source_ko := VUndefined;
           buy_price := VUndefined; sell_price := VUndefined;
           owned := VUndefined |}]
       (searching "soup"))
  = Throw TypeError.
Proof. reflexivity. Qed.

(** * Further properties of app.js *)

(** ** The filter *)

Lemma Array_filter_keeps_all {A : Type} (f : A -> outcome bool) (l : list A) :
  Forall (fun x => f x = Ok true) l -> Array_filter f l = Ok l.
Proof.
  induction 1 as [|x l Hx _ IH]; simpl; [reflexivity|]. now rewrite Hx, IH.
Qed.

Lemma Array_filter_throws {A : Type} (f : A -> outcome bool) (l : list A)
    (x : A) (e : error) :
  (forall y e', f y = Throw e' -> e' = e) ->
  In x l -> f x = Throw e -> Array_filter f l = Throw e.
Proof.
  intros Honly Hin Hx. induction l as [|y l IH]; [contradiction|]. simpl.
  destruct (f y) as [keep|e'] eqn:Hy.
  - destruct Hin as [-> | Hin]; [congruence|]. now rewrite (IH Hin).
  - now rewrite (Honly _ _ Hy).
Qed.

Lemma Array_filter_error {A : Type} (f : A -> outcome bool) (l : list A) (e : error) :
  Array_filter f l = Throw e -> exists x, In x l /\ f x = Throw e.
Proof.
  induction l as [|y l IH]; simpl; [discriminate|].
  destruct (f y) as [keep|e'] eqn:Hy.
  - destruct (Array_filter f l) as [kept|e'']; [discriminate|].
    intros H. inversion H; subst. destruct (IH eq_refl) as (x & Hin & Hx).
    exists x. split; [now right | exact Hx].
  - intros H. inversion H; subst. exists y. split; [now left | exact Hy].
Qed.

Lemma recipe_filter_error (lower : jstring -> jstring) (category text : jstring)
    (r : recipe) (e : error) :
  recipe_filter lower category text r = Throw e -> e = TypeError.
Proof.
  unfold recipe_filter, call_toLowerCase.
  destruct (lower (trim text)); [discriminate|].
  destruct (name_ko r); try (intros H; inversion H; reflexivity).
  destruct (includes _ _); [discriminate|].
  destruct (name_en r); intros H; inversion H; reflexivity.
Qed.

(** The callback for a category, from the callback for "all". *)
Lemma recipe_filter_category (lower : jstring -> jstring) (category text : jstring)
    (r : recipe) :
  recipe_filter lower category text r
  = match recipe_filter lower (js "all") text r with
    | Ok textMatch =>
        Ok ((jstring_eqb category (js "all")
             || strict_eq (category_en r) (VStr category)) && textMatch)
    | Throw e => Throw e
    end.
Proof.
  unfold recipe_filter, call_toLowerCase.
  assert (Hall : jstring_eqb (js "all") (js "all") = true) by now apply jstring_eqb_eq.
  rewrite Hall. cbn [orb andb].
  destruct (lower (trim text)); [reflexivity|].
  destruct (name_ko r); try reflexivity.
  destruct (includes _ _); [reflexivity|].
  destruct (name_en r); reflexivity.
Qed.

Lemma trimStart_clean (s : jstring) : starts_clean (trimStart s).
Proof.
  induction s as [|c s IH]; simpl; [exact I|].
  destruct (is_js_space c) eqn:Hc; [exact IH | exact Hc].
Qed.

Lemma trimStart_of_clean (s : jstring) : starts_clean s -> trimStart s = s.
Proof. destruct s as [|c s]; simpl; [reflexivity | now intros ->]. Qed.

Lemma trimStart_suffix (s : jstring) : exists dropped, s = dropped ++ trimStart s.
Proof.
  induction s as [|c s (dropped & IH)]; simpl; [now exists []|].
  destruct (is_js_space c).
  - exists (c :: dropped). simpl. now rewrite <- IH.
  - now exists [].
Qed.

Lemma trim_clean (s : jstring) : starts_clean (trim s) /\ starts_clean (rev (trim s)).
Proof.
  unfold trim. rewrite rev_involutive. split; [|apply trimStart_clean].
  pose proof (trimStart_clean s) as Hclean.
  destruct (trimStart_suffix (rev (trimStart s))) as (dropped & Hsplit).
  apply (f_equal (@rev N)) in Hsplit. rewrite rev_involutive, rev_app_distr in Hsplit.
  destruct (rev (trimStart (rev (trimStart s)))) as [|c kept]; [exact I|].
  rewrite Hsplit in Hclean. exact Hclean.
Qed.

(** Trimming a trimmed string changes nothing. *)
Lemma trim_idempotent (s : jstring) : trim (trim s) = trim s.
Proof.
  destruct (trim_clean s) as [Hhead Hlast].
  unfold trim at 1. rewrite (trimStart_of_clean _ Hhead).
  rewrite (trimStart_of_clean _ Hlast). apply rev_involutive.
Qed.

Lemma getFilteredRecipes_blank (lower : jstring -> jstring) (st : state) :
  currentCategory st = js "all" ->
  lower (trim (searchText st)) = [] ->
  getFilteredRecipes lower st = Ok (allRecipes st).
Proof.
  intros Hcat Hkw. unfold getFilteredRecipes. apply Array_filter_keeps_all.
  apply List.Forall_forall. intros r _. unfold recipe_filter.
  rewrite Hkw, Hcat. assert (H : jstring_eqb (js "all") (js "all") = true)
    by now apply jstring_eqb_eq. now rewrite H.
Qed.

(** X1.  With the category "all" and a search text whose keyword is empty
    (nothing typed, or white space only), the filter returns the whole
    catalog in its order, whatever the recipes hold, names missing or
    not. *)
Theorem X1_blank_search_shows_catalog (lower : jstring -> jstring) (st : state) :
  currentCategory st = js "all" ->
  lower (trim (searchText st)) = [] ->
  getFilteredRecipes lower st = Ok (allRecipes st).
Proof.
  intros Hcat Hkw. unfold getFilteredRecipes. apply Array_filter_keeps_all.
  apply List.Forall_forall. intros r _. unfold recipe_filter.
  rewrite Hkw, Hcat.
  replace (jstring_eqb (js "all") (js "all")) with true
    by (symmetry; now apply jstring_eqb_eq).
  reflexivity.
Qed.

(** X2.  Filtering is idempotent: the filter applied to a catalog that
    is its own result, under the same category and search text, returns
    that result again. *)
Theorem X2_filter_idempotent (lower : jstring -> jstring) (st : state)
    (visible : list recipe) :
  getFilteredRecipes lower st = Ok visible ->
  getFilteredRecipes lower (set_allRecipes visible st) = Ok visible.
Proof.
  intros Hvis. unfold getFilteredRecipes in *. simpl.
  apply Array_filter_keeps_all. apply List.Forall_forall. intros r Hr.
  now apply (Array_filter_In _ _ _ Hvis r).
Qed.

(** X3.  A category narrows what "all" shows: when the filter returns
    [shown] for the category "all", it returns for every category, with
    the same search text, a subsequence of [shown], and for a category
    other than "all" every recipe of it has that [category_en]. *)
Theorem X3_category_narrows (lower : jstring -> jstring) (st : state)
    (shown : list recipe) :
  getFilteredRecipes lower (set_currentCategory (js "all") st) = Ok shown ->
  forall category,
    exists visible,
      getFilteredRecipes lower (set_currentCategory category st) = Ok visible /\
      visible `sublist_of` shown /\
      (category <> js "all" ->
       Forall (fun r => category_en r = VStr category) visible).
Proof.
  unfold getFilteredRecipes. simpl. intros Hall category.
  revert shown Hall. induction (allRecipes st) as [|r l IH]; simpl; intros shown Hall.
  - inversion Hall. exists []. repeat split; constructor.
  - rewrite (recipe_filter_category lower category).
    destruct (recipe_filter lower (js "all") (searchText st) r) as [t|]; [|discriminate].
    destruct (Array_filter (recipe_filter lower (js "all") (searchText st)) l)
      as [shown'|]; [|discriminate].
    destruct (IH _ eq_refl) as (visible & -> & Hsub & Hcat).
    inversion Hall; subst; clear Hall.
    destruct (jstring_eqb category (js "all")
              || strict_eq (category_en r) (VStr category)) eqn:Hm;
      destruct t; simpl; eexists; (split; [reflexivity|]).
    + split; [now constructor|]. intros Hne. constructor; [|now apply Hcat].
      apply orb_true_iff in Hm. destruct Hm as [Hm | Hm].
      * apply jstring_eqb_eq in Hm. contradiction.
      * now apply strict_eq_eq in Hm.
    + split; [exact Hsub | exact Hcat].
    + split; [now constructor | exact Hcat].
    + split; [exact Hsub | exact Hcat].
Qed.

(** X4.  The only exception the filter throws is a TypeError, and it
    throws one whenever a keyword is typed and some recipe of the catalog
    has a [name_ko] that is not a string: in whatever category that recipe
    is, and whatever category is selected. *)
Theorem X4_filter_throws_on_missing_name (lower : jstring -> jstring) (st : state) :
  (forall e, getFilteredRecipes lower st = Throw e -> e = TypeError) /\
  (forall r,
     lower (trim (searchText st)) <> [] ->
     In r (allRecipes st) ->
     (forall s, name_ko r <> VStr s) ->
     getFilteredRecipes lower st = Throw TypeError).
Proof.
  unfold getFilteredRecipes. split.
  - intros e H. apply Array_filter_error in H. destruct H as (x & _ & Hx).
    now apply recipe_filter_error in Hx.
  - intros r Hkw Hin Hname. apply (Array_filter_throws _ _ r).
    + intros y e'. apply recipe_filter_error.
    + exact Hin.
    + unfold recipe_filter, call_toLowerCase.
      destruct (lower (trim (searchText st))); [contradiction|].
      destruct (name_ko r) as [| | | |s]; try reflexivity.
      now destruct (Hname s).
Qed.

(** X5.  White space around the search text does not matter: the filter
    gives the same outcome for a text and for the text trimmed. *)
Theorem X5_search_text_is_trimmed (lower : jstring -> jstring) (st : state)
    (text : jstring) :
  getFilteredRecipes lower (set_searchText (trim text) st)
  = getFilteredRecipes lower (set_searchText text st).
Proof.
  unfold getFilteredRecipes. simpl.
  induction (allRecipes st) as [|r l IH]; simpl; [reflexivity|].
  rewrite IH. unfold recipe_filter. now rewrite trim_idempotent.
Qed.

(** ** The change listener *)

Lemma checkbox_change_returns (lower : jstring -> jstring) (r : recipe)
    (checked : bool) (st : state) (visible : list recipe) :
  getFilteredRecipes lower st = Ok visible ->
  checkbox_change lower r checked st
  = (Ok tt,
     set_stats_textContent
       (stats_line (length visible)
          (ownedCount (if checked then Set_add (ownedIds st) (id r)
                       else Set_delete (ownedIds st) (id r)) visible))
       (set_localStorage
          (<[STORAGE_KEY :=
               JSON_stringify
                 (Set_values (if checked then Set_add (ownedIds st) (id r)
                              else Set_delete (ownedIds st) (id r)))]>
             (localStorage st))
          (set_ownedIds (if checked then Set_add (ownedIds st) (id r)
                         else Set_delete (ownedIds st) (id r)) st))).
Proof.
  intros Hvis. unfold checkbox_change, bind, saveOwned, renderStats, assign, read.
  destruct checked; simpl;
    match goal with
    | |- context [getFilteredRecipes lower ?s] =>
        replace (getFilteredRecipes lower s) with (Ok visible : outcome (list recipe))
          by (rewrite <- Hvis; symmetry; now apply getFilteredRecipes_frame)
    end; reflexivity.
Qed.

Lemma checkbox_change_throws (lower : jstring -> jstring) (r : recipe)
    (checked : bool) (st : state) (e : error) :
  getFilteredRecipes lower st = Throw e ->
  checkbox_change lower r checked st
  = (Throw e,
     set_localStorage
       (<[STORAGE_KEY :=
            JSON_stringify
              (Set_values (if checked then Set_add (ownedIds st) (id r)
                           else Set_delete (ownedIds st) (id r)))]>
          (localStorage st))
       (set_ownedIds (if checked then Set_add (ownedIds st) (id r)
                      else Set_delete (ownedIds st) (id r)) st)).
Proof.
  intros Hvis. unfold checkbox_change, bind, saveOwned, renderStats, assign, read.
  destruct checked; simpl;
    match goal with
    | |- context [getFilteredRecipes lower ?s] =>
        replace (getFilteredRecipes lower s) with (Throw e : outcome (list recipe))
          by (rewrite <- Hvis; symmetry; now apply getFilteredRecipes_frame)
    end; reflexivity.
Qed.

Lemma ownedCount_other (owned owned' : jsset) (l : list recipe) :
  (forall x, In x l -> Set_has owned' (id x) = Set_has owned (id x)) ->
  ownedCount owned' l = ownedCount owned l.
Proof.
  unfold ownedCount. induction l as [|x l IH]; intros H; simpl; [reflexivity|].
  rewrite (H x (or_introl eq_refl)).
  specialize (IH (fun y Hy => H y (or_intror Hy))).
  destruct (Set_has owned (id x)); simpl; now rewrite IH.
Qed.

Lemma Set_has_add (s : jsset) (v x : value) :
  Set_has (Set_add s v) x = Set_has s x || strict_eq x v.
Proof.
  apply eq_true_iff_eq.
  rewrite orb_true_iff, !Set_has_In, Set_add_In, strict_eq_eq. tauto.
Qed.

Lemma Set_has_delete (s : jsset) (v x : value) :
  Set_has (Set_delete s v) x = Set_has s x && negb (strict_eq x v).
Proof.
  apply eq_true_iff_eq.
  rewrite andb_true_iff, !Set_has_In, Set_delete_In, negb_true_iff, strict_eq_neq.
  tauto.
Qed.

(** With ids that do not repeat, owning one more visible recipe raises
    the owned count by one, and owning one less lowers it by one. *)
Lemma ownedCount_toggle (owned : jsset) (visible : list recipe) (r : recipe) :
  NoDup (List.map id visible) -> In r visible ->
  (~ In (id r) owned ->
   ownedCount (Set_add owned (id r)) visible = S (ownedCount owned visible)) /\
  (In (id r) owned ->
   S (ownedCount (Set_delete owned (id r)) visible) = ownedCount owned visible).
Proof.
  induction visible as [|x l IH]; intros Hnd Hin; [contradiction|].
  simpl in Hnd. apply NoDup_cons in Hnd. destruct Hnd as [Hx Hnd].
  rewrite list_elem_of_In in Hx.
  assert (Hrest : forall y, In y l -> id y <> id x).
  { intros y Hy Heq. apply Hx. rewrite <- Heq. now apply in_map. }
  unfold ownedCount in *. cbn [List.filter].
  rewrite Set_has_add, Set_has_delete.
  destruct Hin as [-> | Hin].
  - rewrite strict_eq_refl, orb_true_r, andb_false_r.
    split; intros Hown.
    + apply Set_has_not_In in Hown. rewrite Hown. simpl. f_equal.
      apply (ownedCount_other owned (Set_add owned (id r)) l).
      intros y Hy. rewrite Set_has_add.
      destruct (strict_eq (id y) (id r)) eqn:Heq; [|now rewrite orb_false_r].
      apply strict_eq_eq in Heq. now destruct (Hrest y Hy).
    + apply Set_has_In in Hown. rewrite Hown. simpl. f_equal.
      apply (ownedCount_other owned (Set_delete owned (id r)) l).
      intros y Hy. rewrite Set_has_delete.
      destruct (strict_eq (id y) (id r)) eqn:Heq; [|now rewrite andb_true_r].
      apply strict_eq_eq in Heq. now destruct (Hrest y Hy).
  - destruct (IH Hnd Hin) as [IHadd IHdel].
    assert (Hne : strict_eq (id x) (id r) = false).
    { apply strict_eq_neq. intros Heq. now apply (Hrest r Hin). }
    rewrite Hne, orb_false_r, andb_true_r.
    destruct (Set_has owned (id x)); simpl; split; intros Hown;
      try (rewrite IHadd by exact Hown); try (rewrite <- IHdel by exact Hown);
      reflexivity.
Qed.

(** X6.  The change listener changes the membership of the id of its
    recipe and of no other id: after it, with the box checked, an id is
    owned when it was owned or is that id; with the box unchecked, when it
    was owned and is not that id. *)
Theorem X6_toggle_changes_one_membership
    (lower : jstring -> jstring) (r : recipe) (checked : bool) (st : state)
    (v : value) :
  In v (ownedIds (snd (checkbox_change lower r checked st)))
  <-> (if checked then In v (ownedIds st) \/ v = id r
       else In v (ownedIds st) /\ v <> id r).
Proof.
  destruct (checkbox_change_ownership lower r checked st) as [-> _].
  destruct checked; [apply Set_add_In | apply Set_delete_In].
Qed.

(** X7.  When the ids of the visible recipes do not repeat, checking the
    box of a visible recipe that was not owned makes the status line show
    an owned count one higher, and unchecking the box of one that was
    owned makes it show an owned count one lower; the visible count stays. *)
Theorem X7_toggle_moves_count_by_one
    (lower : jstring -> jstring) (r : recipe) (st : state) (visible : list recipe) :
  getFilteredRecipes lower st = Ok visible ->
  NoDup (List.map id visible) ->
  In r visible ->
  (~ In (id r) (ownedIds st) ->
   stats_textContent (snd (checkbox_change lower r true st))
   = stats_line (length visible) (S (ownedCount (ownedIds st) visible))) /\
  (In (id r) (ownedIds st) ->
   exists fewer,
     ownedCount (ownedIds st) visible = S fewer /\
     stats_textContent (snd (checkbox_change lower r false st))
     = stats_line (length visible) fewer).
Proof.
  intros Hvis Hnd Hin.
  destruct (ownedCount_toggle (ownedIds st) visible r Hnd Hin) as [Hadd Hdel].
  split; intros Hown.
  - rewrite (checkbox_change_returns _ _ _ _ _ Hvis). simpl. now rewrite Hadd.
  - exists (ownedCount (Set_delete (ownedIds st) (id r)) visible).
    split; [now rewrite Hdel|].
    now rewrite (checkbox_change_returns _ _ _ _ _ Hvis).
Qed.

(** X8.  When the filter throws, the change listener has already changed
    the set and stored it: it ends with that exception, the ownership set
    and the stored entry updated, and the status line as it was. *)
Theorem X8_toggle_saves_before_filter_throws
    (lower : jstring -> jstring) (r : recipe) (checked : bool) (st : state)
    (e : error) :
  getFilteredRecipes lower st = Throw e ->
  fst (checkbox_change lower r checked st) = Throw e /\
  ownedIds (snd (checkbox_change lower r checked st))
  = (if checked then Set_add (ownedIds st) (id r)
     else Set_delete (ownedIds st) (id r)) /\
  stored_ok (snd (checkbox_change lower r checked st)) /\
  stats_textContent (snd (checkbox_change lower r checked st)) = stats_textContent st /\
  recipeGrid (snd (checkbox_change lower r checked st)) = recipeGrid st.
Proof.
  intros Hvis. rewrite (checkbox_change_throws _ _ _ _ _ Hvis). simpl.
  repeat split. unfold stored_ok. simpl. apply lookup_insert_eq.
Qed.

(** ** Rendering and the filter listeners *)

(** What [renderRecipes] leaves alone, whether it returns or throws. *)
Lemma renderRecipes_frame (lower : jstring -> jstring) (st : state) :
  allRecipes (snd (renderRecipes lower st)) = allRecipes st /\
  currentCategory (snd (renderRecipes lower st)) = currentCategory st /\
  searchText (snd (renderRecipes lower st)) = searchText st /\
  ownedIds (snd (renderRecipes lower st)) = ownedIds st /\
  localStorage (snd (renderRecipes lower st)) = localStorage st /\
  requests (snd (renderRecipes lower st)) = requests st /\
  listeners (snd (renderRecipes lower st)) = listeners st.
Proof.
  destruct (getFilteredRecipes lower st) as [visible|e] eqn:Hvis.
  - rewrite (renderRecipes_cards _ _ _ Hvis). repeat split.
  - rewrite (renderRecipes_throws _ _ _ Hvis). repeat split.
Qed.

Lemma checked_count_cards (owned : jsset) (visible : list recipe) :
  checked_count (List.map (fun r => CardNode (render_card owned r)) visible)
  = ownedCount owned visible.
Proof.
  unfold checked_count, ownedCount.
  induction visible as [|r visible IH]; simpl; [reflexivity|].
  destruct (Set_has owned (id r)); simpl; now rewrite IH.
Qed.

(** X9.  Rendering is idempotent: a second [renderRecipes] right after a
    first one has the same outcome and leaves the same state, grid and
    status line included. *)
Theorem X9_render_idempotent (lower : jstring -> jstring) (st : state) :
  renderRecipes lower (snd (renderRecipes lower st)) = renderRecipes lower st.
Proof.
  destruct (getFilteredRecipes lower st) as [visible|e] eqn:Hvis.
  - rewrite (renderRecipes_cards _ _ _ Hvis). simpl.
    erewrite renderRecipes_cards; [reflexivity | exact Hvis].
  - rewrite (renderRecipes_throws _ _ _ Hvis). simpl.
    now apply renderRecipes_throws.
Qed.

(** X10.  After a rendering that returned, the grid is rebuilt from
    nothing and the status line agrees with it: the visible count it
    shows is the number of children of the grid, all of them cards, and
    the owned count it shows is the number of checked checkboxes. *)
Theorem X10_status_line_agrees_with_grid (lower : jstring -> jstring) (st : state) :
  fst (renderRecipes lower st) = Ok tt ->
  stats_textContent (snd (renderRecipes lower st))
  = stats_line (length (recipeGrid (snd (renderRecipes lower st))))
               (checked_count (recipeGrid (snd (renderRecipes lower st)))) /\
  Forall (fun n => exists c, n = CardNode c) (recipeGrid (snd (renderRecipes lower st))) /\
  checkboxes_consistent (snd (renderRecipes lower st)).
Proof.
  destruct (getFilteredRecipes lower st) as [visible|e] eqn:Hvis.
  - intros _. rewrite (renderRecipes_cards _ _ _ Hvis). simpl.
    rewrite checked_count_cards, length_map. split; [reflexivity|]. split.
    + apply List.Forall_forall. intros n Hn. apply in_map_iff in Hn.
      destruct Hn as (r & <- & _). eauto.
    + apply rendered_consistent.
  - rewrite (renderRecipes_throws _ _ _ Hvis). discriminate.
Qed.

(** X11.  When the filter throws for the text typed, the input listener
    of the search box ends with that exception having stored the text and
    redrawn nothing: grid and status line are those of before. *)
Theorem X11_search_keeps_screen_when_filter_throws
    (lower : jstring -> jstring) (text : jstring) (st : state) (e : error) :
  getFilteredRecipes lower (set_searchText text st) = Throw e ->
  search_input lower text st = (Throw e, set_searchText text st).
Proof.
  intros Hvis. unfold search_input, bind, assign.
  now rewrite (renderRecipes_throws _ _ _ Hvis).
Qed.

(** X12.  The listeners of the search box and of the category buttons
    never touch the catalog, the ownership set or the storage, make no
    request and bind no listener; each sets its own part of the filter
    state and leaves the other part. *)
Theorem X12_filter_listeners_frame
    (lower : jstring -> jstring) (text category : jstring) (st : state) :
  (allRecipes (snd (search_input lower text st)) = allRecipes st /\
   ownedIds (snd (search_input lower text st)) = ownedIds st /\
   localStorage (snd (search_input lower text st)) = localStorage st /\
   requests (snd (search_input lower text st)) = requests st /\
   listeners (snd (search_input lower text st)) = listeners st /\
   searchText (snd (search_input lower text st)) = text /\
   currentCategory (snd (search_input lower text st)) = currentCategory st) /\
  (allRecipes (snd (category_click lower (Some category) st)) = allRecipes st /\
   ownedIds (snd (category_click lower (Some category) st)) = ownedIds st /\
   localStorage (snd (category_click lower (Some category) st)) = localStorage st /\
   requests (snd (category_click lower (Some category) st)) = requests st /\
   listeners (snd (category_click lower (Some category) st)) = listeners st /\
   searchText (snd (category_click lower (Some category) st)) = searchText st /\
   currentCategory (snd (category_click lower (Some category) st)) = category) /\
  category_click lower None st = (Ok tt, st).
Proof.
  split; [|split; [|reflexivity]].
  - assert (E : search_input lower text st = renderRecipes lower (set_searchText text st))
      by (unfold search_input, bind, assign; now destruct (renderRecipes _ _) as [[[]|] ?]).
    rewrite E.
    destruct (renderRecipes_frame lower (set_searchText text st))
      as (H1 & H2 & H3 & H4 & H5 & H6 & H7).
    now rewrite H1, H2, H3, H4, H5, H6, H7.
  - assert (E : category_click lower (Some category) st
                = renderRecipes lower (set_currentCategory category st))
      by (unfold category_click, bind, assign; now destruct (renderRecipes _ _) as [[[]|] ?]).
    rewrite E.
    destruct (renderRecipes_frame lower (set_currentCategory category st))
      as (H1 & H2 & H3 & H4 & H5 & H6 & H7).
    now rewrite H1, H2, H3, H4, H5, H6, H7.
Qed.

Lemma mark_active_others (i : nat) (buttons : list filter_button) (k : nat) :
  (forall j, i <> k + j)%nat ->
  List.filter active
    (imap (fun j item =>
             {| data_category := data_category item;
                active := bool_decide ((k + j)%nat = i) |}) buttons)
  = [].
Proof.
  revert k. induction buttons as [|b buttons IH]; intros k Hk; [reflexivity|].
  rewrite imap_cons. cbn [List.filter active].
  rewrite bool_decide_eq_false_2 by (intros H; apply (Hk 0%nat); lia).
  erewrite imap_ext; [apply (IH (S k))|].
  - intros j. specialize (Hk (S j)). lia.
  - intros j x _. simpl. f_equal. apply bool_decide_ext. lia.
Qed.

Lemma mark_active_one (buttons : list filter_button) :
  forall (i k : nat) (button : filter_button),
    buttons !! i = Some button ->
    List.filter active
      (imap (fun j item =>
               {| data_category := data_category item;
                  active := bool_decide ((k + j)%nat = (k + i)%nat) |}) buttons)
    = [{| data_category := data_category button; active := true |}].
Proof.
  induction buttons as [|b buttons IH]; intros i k button Hi; [discriminate|].
  rewrite imap_cons. cbn [List.filter active]. destruct i as [|i].
  - inversion Hi; subst. rewrite bool_decide_eq_true_2 by lia. f_equal.
    erewrite imap_ext; [apply (mark_active_others (k + 0) buttons (S k))|].
    + intros j. lia.
    + intros j x _. simpl. f_equal. apply bool_decide_ext. lia.
  - rewrite bool_decide_eq_false_2 by lia.
    erewrite imap_ext; [apply (IH i (S k) button Hi)|].
    intros j x _. simpl. f_equal. apply bool_decide_ext. lia.
Qed.

(** X13.  A click on a category button makes that button the only one
    with the class [active], keeps the [data-category] of every button,
    and sets the category to that of the button, whether or not the
    rendering that follows throws; the state is then what the listener
    without the buttons leaves.  A click outside the buttons changes
    nothing. *)
Theorem X13_one_active_button
    (lower : jstring -> jstring) (i : nat) (button : filter_button) (u : ui) :
  filters u !! i = Some button ->
  List.filter active (filters (snd (filters_click lower (Some i) u)))
  = [{| data_category := data_category button; active := true |}] /\
  (forall j item,
     filters (snd (filters_click lower (Some i) u)) !! j = Some item ->
     (active item = true <-> j = i) /\
     exists before, filters u !! j = Some before /\
                    data_category item = data_category before) /\
  length (filters (snd (filters_click lower (Some i) u))) = length (filters u) /\
  currentCategory (app_state (snd (filters_click lower (Some i) u)))
  = data_category button /\
  (fst (filters_click lower (Some i) u),
   app_state (snd (filters_click lower (Some i) u)))
  = category_click lower (Some (data_category button)) (app_state u) /\
  filters_click lower None u = (Ok tt, u).
Proof.
  intros Hi. unfold filters_click. rewrite Hi. cbn [snd fst filters app_state].
  split; [|split; [|split; [|split; [|split]]]].
  - unfold mark_active.
    pose proof (mark_active_one (filters u) i 0 button Hi) as H. exact H.
  - intros j item Hj. unfold mark_active in Hj. rewrite list_lookup_imap in Hj.
    destruct (filters u !! j) as [before|] eqn:Hb; [|discriminate].
    inversion Hj; subst. simpl. split; [apply bool_decide_eq_true|]. eauto.
  - unfold mark_active. apply length_imap.
  - destruct (renderRecipes_frame lower
                (set_currentCategory (data_category button) (app_state u)))
      as (_ & -> & _). reflexivity.
  - unfold category_click, bind, assign.
    now destruct (renderRecipes lower _) as [[[]|] ?].
  - reflexivity.
Qed.

(** ** Loading and startup *)

Lemma loadRecipes_cases (env : page) (st : state) :
  loadRecipes env st
  = if jstring_eqb (location_protocol env) (js "file:")
    then (Throw (Error blocked_message), st)
    else
      match network env (js "./recipes.json") with
      | None =>
          (Throw TypeError, set_requests (requests st ++ [js "./recipes.json"]) st)
      | Some res =>
          if negb (ok res)
          then (Throw (Error fetch_failed_message),
                set_requests (requests st ++ [js "./recipes.json"]) st)
          else
            match body res with
            | None =>
                (Throw SyntaxError,
                 set_requests (requests st ++ [js "./recipes.json"]) st)
            | Some parsed =>
                (Ok tt,
                 set_allRecipes parsed
                   (set_requests (requests st ++ [js "./recipes.json"]) st))
            end
      end.
Proof.
  unfold loadRecipes, fetch, bind, assign, ret, throw, lift, json.
  destruct (jstring_eqb _ _); [reflexivity|].
  destruct (network env _) as [res|]; [|reflexivity].
  destruct (negb (ok res)); [reflexivity|].
  destruct (body res); reflexivity.
Qed.

(** The state [init] ends in: the rendering after a load that returned,
    the failure notice otherwise. *)
Lemma init_cases (lower : jstring -> jstring) (env : page) (st : state) :
  init lower env st
  = match loadRecipes env st with
    | (Throw e, st1) =>
        (Ok tt,
         set_recipeGrid [ErrorParagraph e]
           (set_stats_textContent (js "데이터 로딩 실패") st1))
    | (Ok _, st1) =>
        match renderRecipes lower (set_listeners (S (listeners st1)) st1) with
        | (Throw e, st2) =>
            (Ok tt,
             set_recipeGrid [ErrorParagraph e]
               (set_stats_textContent (js "데이터 로딩 실패") st2))
        | (Ok _, st2) => (Ok tt, st2)
        end
    end.
Proof.
  unfold init, try_catch, bindEvents. unfold bind at 1.
  destruct (loadRecipes env st) as [[[]|e] st1]; [|reflexivity].
  unfold bind at 1, assign at 1.
  destruct (renderRecipes lower _) as [[[]|e] st2]; reflexivity.
Qed.

Lemma loadRecipes_throw_catalog (env : page) (st : state) (e : error) :
  fst (loadRecipes env st) = Throw e ->
  allRecipes (snd (loadRecipes env st)) = allRecipes st.
Proof.
  rewrite loadRecipes_cases.
  destruct (jstring_eqb _ _); [reflexivity|].
  destruct (network env _) as [res|]; [|reflexivity].
  destruct (negb (ok res)); [reflexivity|].
  destruct (body res); [discriminate | reflexivity].
Qed.

(** X14.  When the request for the catalog itself fails, [loadRecipes]
    throws a TypeError after that one request.  Whatever makes it throw,
    the catalog is left as it was; and it makes no request or exactly the
    one for "./recipes.json". *)
Theorem X14_load_failure_keeps_catalog (env : page) (st : state) :
  (location_protocol env <> js "file:" ->
   network env (js "./recipes.json") = None ->
   loadRecipes env st
   = (Throw TypeError, set_requests (requests st ++ [js "./recipes.json"]) st)) /\
  (forall e, fst (loadRecipes env st) = Throw e ->
             allRecipes (snd (loadRecipes env st)) = allRecipes st) /\
  (requests (snd (loadRecipes env st)) = requests st \/
   requests (snd (loadRecipes env st)) = requests st ++ [js "./recipes.json"]).
Proof.
  rewrite loadRecipes_cases.
  destruct (jstring_eqb (location_protocol env) (js "file:")) eqn:Hfile.
  - apply jstring_eqb_eq in Hfile. split; [contradiction|]. split; [reflexivity|].
    now left.
  - destruct (network env _) as [res|].
    + split; [discriminate|].
      destruct (negb (ok res)); [split; [reflexivity | now right]|].
      destruct (body res); simpl; split; try discriminate; try reflexivity;
        now right.
    + split; [reflexivity|]. split; [reflexivity | now right].
Qed.

(** X15.  [init] never throws: it catches whatever the load or the first
    rendering throws and shows the failure notice with the error in place
    of the grid.  When the load throws no listener is bound and the
    catalog is untouched; when it returns the listeners are bound once.
    In no case are the ownership set, the storage or the filter state
    changed. *)
Theorem X15_init_catches_everything
    (lower : jstring -> jstring) (env : page) (st : state) :
  fst (init lower env st) = Ok tt /\
  (forall e, fst (loadRecipes env st) = Throw e ->
     stats_textContent (snd (init lower env st)) = js "데이터 로딩 실패" /\
     recipeGrid (snd (init lower env st)) = [ErrorParagraph e] /\
     listeners (snd (init lower env st)) = listeners st /\
     allRecipes (snd (init lower env st)) = allRecipes st) /\
  (fst (loadRecipes env st) = Ok tt ->
   listeners (snd (init lower env st)) = S (listeners st) /\
   allRecipes (snd (init lower env st)) = allRecipes (snd (loadRecipes env st)) /\
   (forall e,
      getFilteredRecipes lower (snd (loadRecipes env st)) = Throw e ->
      stats_textContent (snd (init lower env st)) = js "데이터 로딩 실패" /\
      recipeGrid (snd (init lower env st)) = [ErrorParagraph e])) /\
  ownedIds (snd (init lower env st)) = ownedIds st /\
  localStorage (snd (init lower env st)) = localStorage st /\
  currentCategory (snd (init lower env st)) = currentCategory st /\
  searchText (snd (init lower env st)) = searchText st.
Proof.
  rewrite init_cases.
  assert (Hload : forall o st1, loadRecipes env st = (o, st1) ->
            ownedIds st1 = ownedIds st /\ localStorage st1 = localStorage st /\
            currentCategory st1 = currentCategory st /\ searchText st1 = searchText st /\
            listeners st1 = listeners st).
  { intros o st1. rewrite loadRecipes_cases.
    destruct (jstring_eqb _ _); [intros H; inversion H; now subst|].
    destruct (network env _) as [res|]; [|intros H; inversion H; now subst].
    destruct (negb (ok res)); [intros H; inversion H; now subst|].
    destruct (body res); intros H; inversion H; now subst. }
  pose proof (loadRecipes_throw_catalog env st) as Hcat.
  destruct (loadRecipes env st) as [[[]|e] st1] eqn:Hl;
    destruct (Hload _ _ eq_refl) as (Ho & Hs & Hc & Ht & Hn); clear Hload.
  - destruct (getFilteredRecipes lower st1) as [visible|e] eqn:Hvis.
    + rewrite (renderRecipes_cards lower _ visible) by exact Hvis.
      cbn [fst snd]. simpl.
      repeat split; try discriminate; try congruence.
    + rewrite (renderRecipes_throws lower _ e) by exact Hvis.
      cbn [fst snd]. simpl.
      repeat split; try discriminate; try congruence.
  - cbn [fst snd]. simpl.
    repeat split; try discriminate; try congruence.
    exact (Hcat e eq_refl).
Qed.

(** ** The script and the states after it *)

Lemma fold_Set_add_sublist (items acc : list value) :
  exists added,
    fold_left Set_add items acc = acc ++ added /\ added `sublist_of` items.
Proof.
  revert acc. induction items as [|v items IH]; intros acc; simpl.
  - exists []. split; [now rewrite app_nil_r | constructor].
  - unfold Set_add at 2. destruct (Set_has acc v).
    + destruct (IH acc) as (added & -> & Hsub).
      exists added. split; [reflexivity | now constructor].
    + destruct (IH (acc ++ [v])) as (added & -> & Hsub).
      exists (v :: added). split; [now rewrite <- app_assoc | now constructor].
Qed.

Lemma fold_Set_add_In (items acc : list value) (x : value) :
  In x (fold_left Set_add items acc) <-> In x acc \/ In x items.
Proof.
  revert acc. induction items as [|v items IH]; intros acc; simpl; [tauto|].
  rewrite IH, Set_add_In. split; intros H; intuition (subst; auto).
Qed.

Lemma filter_both {A : Type} (R P Q : A -> bool) (l : list A) :
  (forall y, R y = P y && Q y) ->
  List.filter R l = List.filter P (List.filter Q l).
Proof.
  intros H. induction l as [|a l IH]; simpl; [reflexivity|].
  rewrite H. destruct (Q a); simpl.
  - rewrite andb_true_r. destruct (P a); now rewrite IH.
  - now rewrite andb_false_r.
Qed.

Lemma unequal_strict (x y : value) :
  negb (bool_decide (y = x)) = negb (strict_eq y x).
Proof.
  f_equal. destruct (strict_eq y x) eqn:H.
  - apply strict_eq_eq in H. now apply bool_decide_eq_true.
  - apply strict_eq_neq in H. now apply bool_decide_eq_false.
Qed.

Lemma Set_has_app (s : jsset) (x y : value) :
  Set_has (s ++ [x]) y = Set_has s y || strict_eq y x.
Proof. unfold Set_has. rewrite existsb_app. simpl. now rewrite orb_false_r. Qed.

(** Adding the items of an array to a set appends those it does not hold,
    each at its first occurrence. *)
Lemma fold_Set_add_first_occurrences (items : list value) :
  forall acc : jsset,
    fold_left Set_add items acc
    = acc ++ List.filter (fun y => negb (Set_has acc y)) (first_occurrences items).
Proof.
  induction items as [|x items IH]; intros acc; simpl.
  - now rewrite app_nil_r.
  - rewrite IH. unfold Set_add. destruct (Set_has acc x) eqn:Hx; simpl.
    + f_equal. apply filter_both. intros y.
      destruct (Set_has acc y) eqn:Hy; [reflexivity|]. simpl.
      symmetry. apply negb_true_iff, bool_decide_eq_false. intros ->. congruence.
    + rewrite <- app_assoc. simpl. do 2 f_equal. apply filter_both. intros y.
      now rewrite Set_has_app, negb_orb, unequal_strict.
Qed.

Lemma Set_from_first_occurrences (items : list value) :
  Set_from items = first_occurrences items.
Proof.
  unfold Set_from. rewrite fold_Set_add_first_occurrences. simpl.
  induction (first_occurrences items) as [|a l IH]; simpl; [reflexivity|].
  now rewrite IH.
Qed.

Lemma filter_split {A : Type} (f : A -> bool) (l l1 l2 : list A) (v : A) :
  List.filter f l = l1 ++ v :: l2 ->
  exists m1 m2, l = m1 ++ v :: m2 /\ List.filter f m1 = l1 /\ f v = true.
Proof.
  revert l1. induction l as [|a l IH]; intros l1 H; simpl in H.
  - destruct l1; discriminate H.
  - destruct (f a) eqn:Ha.
    + destruct l1 as [|b l1]; simpl in H; injection H as -> H.
      * exists [], l. repeat split. exact Ha.
      * destruct (IH _ H) as (m1 & m2 & -> & Hm & Hv).
        exists (b :: m1), m2. simpl. rewrite Ha, Hm. repeat split. exact Hv.
    + destruct (IH _ H) as (m1 & m2 & -> & Hm & Hv).
      exists (a :: m1), m2. simpl. rewrite Ha. repeat split; assumption.
Qed.

(** An item of [first_occurrences items] stands after exactly the items
    that occur in [items] before its own first occurrence. *)
Lemma first_occurrences_position (items : list value) :
  forall (before : list value) (v : value) (after : list value),
    first_occurrences items = before ++ v :: after ->
    exists p q, items = p ++ v :: q /\ ~ In v p /\
                (forall w, In w before <-> In w p).
Proof.
  induction items as [|x items IH]; intros before v after H; simpl in H.
  - destruct before; discriminate H.
  - destruct before as [|b before]; simpl in H; injection H as -> H.
    + exists [], items. repeat split; simpl; tauto.
    + apply filter_split in H. destruct H as (m1 & m2 & Hfo & Hm & Hv).
      apply negb_true_iff, bool_decide_eq_false in Hv.
      destruct (IH _ _ _ Hfo) as (p & q & -> & Hp & Hsame).
      exists (b :: p), q. split; [reflexivity|]. split.
      * simpl. intros [Heq | Hin]; [now apply Hv | now apply Hp].
      * intros w. simpl. rewrite <- Hsame, <- Hm, List.filter_In.
        rewrite negb_true_iff, bool_decide_eq_false.
        destruct (decide (w = b)) as [->|Hne]; [tauto|].
        split; [intros [Heq | [Hin _]]; [now left | now right]|].
        intros [Heq | Hin]; [now left | right]. now split.
Qed.

(** X16.  Line 6 removes repetitions from a stored array: when the stored
    text parses to an array, the ownership set holds exactly the elements
    of the array, each once, in the order of their first occurrence: it is
    the array without its repetitions, and each id of the set stands after
    exactly the ids that occur in the array before its first occurrence.
    A stored number or boolean makes the line throw a TypeError. *)
Theorem X16_stored_array_is_deduplicated (text : jstring) :
  text <> [] ->
  (forall items,
     JSON_parse text = Ret (JArray items) ->
     exists owned,
       initial_ownedIds (Some text) = Ret owned /\
       owned = first_occurrences items /\
       NoDup owned /\
       (forall v, In v owned <-> In v items) /\
       owned `sublist_of` items /\
       (forall before v after,
          owned = before ++ v :: after ->
          exists p q, items = p ++ v :: q /\ ~ In v p /\
                      (forall w, In w before <-> In w p))) /\
  (forall z safe, JSON_parse text = Ret (JScalar (VNum z safe)) ->
                  initial_ownedIds (Some text) = Exn TypeError) /\
  (forall b, JSON_parse text = Ret (JScalar (VBool b)) ->
             initial_ownedIds (Some text) = Exn TypeError).
Proof.
  intros Hne. destruct text as [|c text]; [contradiction|].
  unfold initial_ownedIds. split; [|split].
  - intros items Hparse. exists (Set_from items). rewrite Hparse.
    split; [reflexivity|]. split; [apply Set_from_first_occurrences|].
    split; [apply Set_from_is_NoDup|]. split; [|split].
    + intros v. unfold Set_from. rewrite fold_Set_add_In. simpl. tauto.
    + unfold Set_from. destruct (fold_Set_add_sublist items []) as (added & -> & H).
      exact H.
    + intros before v after H. rewrite Set_from_first_occurrences in H.
      now apply first_occurrences_position in H.
  - intros z safe H. now rewrite H.
  - intros b H. now rewrite H.
Qed.

(** X17.  Startup shows the whole catalog: on a page served over a
    protocol other than file:, whose request is answered ok with a JSON
    catalog, and whose stored entry loads as [owned], the script ends with
    that catalog, one card per recipe in catalog order, each checkbox
    showing membership in [owned], the status line counting all of them,
    one request made and the listeners bound once. *)
Theorem X17_startup_shows_catalog
    (lower : jstring -> jstring) (env : page) (res : response)
    (catalog : list recipe) (owned : jsset) :
  lower [] = [] ->
  location_protocol env <> js "file:" ->
  network env (js "./recipes.json") = Some res ->
  ok res = true ->
  body res = Some catalog ->
  initial_ownedIds (storage env !! STORAGE_KEY) = Ret owned ->
  script lower env
  = Ret {| allRecipes := catalog;
           currentCategory := js "all";
           searchText := [];
           ownedIds := owned;
           localStorage := storage env;
           stats_textContent :=
             stats_line (length catalog) (ownedCount owned catalog);
           recipeGrid := List.map (fun r => CardNode (render_card owned r)) catalog;
           requests := [js "./recipes.json"];
           listeners := 1 |}.
Proof.
  intros Hlower Hproto Hnet Hok Hbody Hinit. unfold script. rewrite Hinit.
  change (init lower env _) with (init lower env (startup_state env owned)).
  rewrite init_cases, loadRecipes_cases.
  destruct (jstring_eqb (location_protocol env) (js "file:")) eqn:Hfile;
    [apply jstring_eqb_eq in Hfile; contradiction|].
  rewrite Hnet, Hok, Hbody. cbn [negb].
  erewrite renderRecipes_cards.
  - reflexivity.
  - apply getFilteredRecipes_blank; [reflexivity | exact Hlower].
Qed.

Lemma search_input_eq (lower : jstring -> jstring) (text : jstring) (st : state) :
  search_input lower text st = renderRecipes lower (set_searchText text st).
Proof.
  unfold search_input, bind, assign. now destruct (renderRecipes _ _) as [[[]|] ?].
Qed.

Lemma category_click_eq (lower : jstring -> jstring) (category : jstring) (st : state) :
  category_click lower (Some category) st
  = renderRecipes lower (set_currentCategory category st).
Proof.
  unfold category_click, bind, assign. now destruct (renderRecipes _ _) as [[[]|] ?].
Qed.

(** What the change listener leaves alone, whether it returns or throws. *)
Lemma checkbox_change_frame (lower : jstring -> jstring) (r : recipe)
    (checked : bool) (st : state) :
  allRecipes (snd (checkbox_change lower r checked st)) = allRecipes st /\
  requests (snd (checkbox_change lower r checked st)) = requests st /\
  listeners (snd (checkbox_change lower r checked st)) = listeners st.
Proof.
  destruct (getFilteredRecipes lower st) as [visible|e] eqn:Hvis.
  - rewrite (checkbox_change_returns _ _ _ _ _ Hvis). repeat split.
  - rewrite (checkbox_change_throws _ _ _ _ _ Hvis). repeat split.
Qed.

(** What an event leaves alone. *)
Lemma dispatch_frame (lower : jstring -> jstring) (ev : event) (st : state) :
  allRecipes (snd (dispatch lower ev st)) = allRecipes st /\
  requests (snd (dispatch lower ev st)) = requests st /\
  listeners (snd (dispatch lower ev st)) = listeners st /\
  (forall key, key <> STORAGE_KEY ->
     localStorage (snd (dispatch lower ev st)) !! key = localStorage st !! key).
Proof.
  destruct ev as [text | [category|] | i]; cbn [dispatch].
  - rewrite search_input_eq.
    destruct (renderRecipes_frame lower (set_searchText text st))
      as (H1 & _ & _ & _ & H5 & H6 & H7).
    rewrite H1, H5, H6, H7. repeat split.
  - rewrite category_click_eq.
    destruct (renderRecipes_frame lower (set_currentCategory category st))
      as (H1 & _ & _ & _ & H5 & H6 & H7).
    rewrite H1, H5, H6, H7. repeat split.
  - repeat split.
  - rewrite checkbox_click_eq.
    destruct (recipeGrid st !! i) as [[c|e]|];
      [|repeat split | repeat split].
    match goal with
    | |- context [checkbox_change lower ?r ?b ?s] =>
        destruct (checkbox_change_frame lower r b s) as (H1 & H2 & H3);
        destruct (checkbox_change_ownership lower r b s) as [_ Hs]
    end.
    rewrite H1, H2, H3, Hs. repeat split.
    intros key Hkey. now rewrite lookup_insert_ne.
Qed.

Lemma init_frame (lower : jstring -> jstring) (env : page) (st : state) :
  localStorage (snd (init lower env st)) = localStorage st /\
  (length (requests (snd (init lower env st))) <= S (length (requests st)))%nat /\
  (listeners (snd (init lower env st)) <= S (listeners st))%nat.
Proof.
  rewrite init_cases, loadRecipes_cases.
  assert (Hlen : length (requests st ++ [js "./recipes.json"])
                 = S (length (requests st)))
    by (rewrite length_app; simpl; lia).
  assert (Hrender : forall st1,
            localStorage st1 = localStorage st ->
            (length (requests st1) <= S (length (requests st)))%nat ->
            listeners st1 = listeners st ->
            let result := renderRecipes lower (set_listeners (S (listeners st1)) st1) in
            localStorage (snd result) = localStorage st /\
            (length (requests (snd result)) <= S (length (requests st)))%nat /\
            (listeners (snd result) <= S (listeners st))%nat).
  { intros st1 Hs Hr Hn result. subst result.
    destruct (renderRecipes_frame lower (set_listeners (S (listeners st1)) st1))
      as (_ & _ & _ & _ & H5 & H6 & H7).
    rewrite H5, H6, H7. simpl. rewrite Hn. auto. }
  assert (Hnotice : forall o st1,
            let result :=
              match (o : outcome unit) with
              | Throw e =>
                  (Ok tt,
                   set_recipeGrid [ErrorParagraph e]
                     (set_stats_textContent (js "데이터 로딩 실패") st1))
              | Ok _ => (Ok tt, st1)
              end in
            localStorage (snd result) = localStorage st1 /\
            requests (snd result) = requests st1 /\
            listeners (snd result) = listeners st1)
    by (intros [[]|e] st1; repeat split).
  destruct (jstring_eqb _ _); [simpl; repeat split; lia|].
  destruct (network env _) as [res|]; [|simpl; rewrite Hlen; repeat split; lia].
  destruct (negb (ok res)); [simpl; rewrite Hlen; repeat split; lia|].
  destruct (body res) as [parsed|]; [|simpl; rewrite Hlen; repeat split; lia].
  specialize (Hrender
                (set_allRecipes parsed
                   (set_requests (requests st ++ [js "./recipes.json"]) st))
                eq_refl ltac:(simpl; rewrite Hlen; lia) eq_refl).
  cbv zeta in Hrender.
  destruct (renderRecipes lower _) as [o st2].
  specialize (Hnotice o st2). cbv zeta in Hnotice.
  simpl in Hrender. destruct Hrender as (R1 & R2 & R3).
  destruct o as [[]|e]; simpl; repeat split; auto.
Qed.

(** X18.  The page writes one key of the storage only: in every state it
    can reach, every key other than [STORAGE_KEY] holds what it held when
    the page was loaded. *)
Theorem X18_only_the_ownership_key_is_written
    (lower : jstring -> jstring) (env : page) (st : state) :
  reachable lower env st ->
  forall key, key <> STORAGE_KEY -> localStorage st !! key = storage env !! key.
Proof.
  induction 1 as [st Hscript | st ev _ IH]; intros key Hkey.
  - unfold script in Hscript.
    destruct (initial_ownedIds _) as [owned| |]; try discriminate.
    inversion Hscript; subst.
    destruct (init_frame lower env (startup_state env owned)) as (Hs & _).
    change (init lower env _) with (init lower env (startup_state env owned)).
    now rewrite Hs.
  - destruct (dispatch_frame lower ev st) as (_ & _ & _ & Hs).
    rewrite Hs by exact Hkey. now apply IH.
Qed.

(** X19.  After startup the catalog is never loaded again: in every state
    the page can reach the catalog, the requests made and the listeners
    bound are those the script ended with, at most one request and one
    binding. *)
Theorem X19_catalog_fixed_after_startup
    (lower : jstring -> jstring) (env : page) (started st : state) :
  script lower env = Ret started ->
  reachable lower env st ->
  allRecipes st = allRecipes started /\
  requests st = requests started /\
  listeners st = listeners started /\
  (length (requests st) <= 1)%nat /\
  (listeners st <= 1)%nat.
Proof.
  intros Hstart. induction 1 as [st Hscript | st ev _ IH].
  - rewrite Hstart in Hscript. inversion Hscript; subst st. clear Hscript.
    unfold script in Hstart.
    destruct (initial_ownedIds _) as [owned| |]; try discriminate.
    inversion Hstart; subst.
    change (init lower env _) with (init lower env (startup_state env owned)).
    destruct (init_frame lower env (startup_state env owned)) as (_ & Hr & Hn).
    simpl in Hr, Hn. repeat split; assumption.
  - destruct IH as (H1 & H2 & H3 & H4 & H5).
    destruct (dispatch_frame lower ev st) as (F1 & F2 & F3 & _).
    rewrite F1, F2, F3. repeat split; assumption.
Qed.

(** X20.  Ownership survives a reload: when the stored entry is the text
    of the ownership set (as it is after any click on a checkbox) and no
    id is [undefined] (an id being a string, a safe integer, a boolean or
    [null], as every [value] is), a page loaded again with that storage
    starts with the same ownership set, leaves the storage as it is, and
    renders every checkbox according to that set. *)
Theorem X20_reload_restores_ownership
    (lower : jstring -> jstring) (env : page) (st : state) :
  NoDup (ownedIds st) ->
  ~ In VUndefined (ownedIds st) ->
  stored_ok st ->
  exists st',
    script lower (reloaded env st) = Ret st' /\
    ownedIds st' = ownedIds st /\
    localStorage st' = localStorage st /\
    checkboxes_consistent st'.
Proof.
  intros Hnd Hdef Hstored. unfold script. cbn [storage reloaded].
  rewrite Hstored, initial_ownedIds_stringify by assumption.
  eexists. split; [reflexivity|]. split; [|split].
  - now rewrite keeps_init.
  - match goal with
    | |- context [init lower ?e ?s] => destruct (init_frame lower e s) as (Hs & _)
    end.
    now rewrite Hs.
  - apply init_consistent.
Qed.

(** ** The further properties at concrete inputs *)

Lemma X1_witness :
  getFilteredRecipes ascii_toLowerCase (set_allRecipes [fish; soup] (searching " "))
  = Ok [fish; soup].
Proof.
  exact (X1_blank_search_shows_catalog ascii_toLowerCase
           (set_allRecipes [fish; soup] (searching " ")) eq_refl eq_refl).
Defined.

Lemma X2_witness :
  getFilteredRecipes ascii_toLowerCase (searching "cake") = Ok [cake] /\
  getFilteredRecipes ascii_toLowerCase (set_allRecipes [cake] (searching "cake"))
  = Ok [cake].
Proof.
  assert (H : getFilteredRecipes ascii_toLowerCase (searching "cake") = Ok [cake])
    by (vm_compute; reflexivity).
  split; [exact H|].
  exact (X2_filter_idempotent ascii_toLowerCase (searching "cake") [cake] H).
Defined.

Lemma X3_witness :
  exists visible,
    getFilteredRecipes ascii_toLowerCase
      (set_currentCategory (js "Dessert") (sample_state (js "Food") [] []))
    = Ok visible /\
    visible `sublist_of` [fish; cake] /\
    (js "Dessert" <> js "all" ->
     Forall (fun r => category_en r = VStr (js "Dessert")) visible).
Proof.
  assert (H : getFilteredRecipes ascii_toLowerCase
                (set_currentCategory (js "all") (sample_state (js "Food") [] []))
              = Ok [fish; cake]) by (vm_compute; reflexivity).
  exact (X3_category_narrows ascii_toLowerCase (sample_state (js "Food") [] [])
           [fish; cake] H (js "Dessert")).
Defined.

Lemma X4_witness :
  getFilteredRecipes ascii_toLowerCase nameless_search = Throw TypeError.
Proof.
  apply (proj2 (X4_filter_throws_on_missing_name ascii_toLowerCase nameless_search)
           soup).
  - vm_compute. discriminate.
  - right. left. reflexivity.
  - intros s H. discriminate H.
Defined.

Lemma sample_ids_NoDup : NoDup (List.map id [fish; cake]).
Proof. apply (bool_decide_unpack _). vm_compute. exact I. Defined.

Lemma X7_witness :
  stats_textContent
    (snd (checkbox_change ascii_toLowerCase cake true (sample_state (js "all") [] [])))
  = stats_line (length [fish; cake])
      (S (ownedCount (ownedIds (sample_state (js "all") [] [])) [fish; cake])).
Proof.
  assert (H : getFilteredRecipes ascii_toLowerCase (sample_state (js "all") [] [])
              = Ok [fish; cake]) by (vm_compute; reflexivity).
  apply (proj1 (X7_toggle_moves_count_by_one ascii_toLowerCase cake
                  (sample_state (js "all") [] []) [fish; cake] H sample_ids_NoDup
                  (or_intror (or_introl eq_refl)))).
  intros [].
Defined.

Lemma X8_witness :
  fst (checkbox_change ascii_toLowerCase fish true nameless_search) = Throw TypeError /\
  ownedIds (snd (checkbox_change ascii_toLowerCase fish true nameless_search))
  = [VNum 1 I] /\
  stats_textContent (snd (checkbox_change ascii_toLowerCase fish true nameless_search))
  = stats_textContent nameless_search.
Proof.
  assert (H : getFilteredRecipes ascii_toLowerCase nameless_search = Throw TypeError)
    by (vm_compute; reflexivity).
  destruct (X8_toggle_saves_before_filter_throws ascii_toLowerCase fish true
              nameless_search TypeError H) as (H1 & H2 & _ & H4 & _).
  split; [exact H1|]. split; [exact H2 | exact H4].
Defined.

Lemma X10_witness :
  stats_textContent (snd (renderRecipes ascii_toLowerCase (searching "cake")))
  = stats_line
      (length (recipeGrid (snd (renderRecipes ascii_toLowerCase (searching "cake")))))
      (checked_count
         (recipeGrid (snd (renderRecipes ascii_toLowerCase (searching "cake"))))).
Proof.
  assert (H : fst (renderRecipes ascii_toLowerCase (searching "cake")) = Ok tt)
    by (vm_compute; reflexivity).
  exact (proj1 (X10_status_line_agrees_with_grid ascii_toLowerCase
                  (searching "cake") H)).
Defined.

Lemma X11_witness :
  search_input ascii_toLowerCase (js "fish")
    (set_allRecipes [fish; soup] (searching " "))
  = (Throw TypeError,
     set_searchText (js "fish") (set_allRecipes [fish; soup] (searching " "))).
Proof.
  apply X11_search_keeps_screen_when_filter_throws. vm_compute. reflexivity.
Defined.

Lemma X13_witness :
  List.filter active (filters (snd (filters_click ascii_toLowerCase (Some 2%nat) sample_ui)))
  = [{| data_category := js "Dessert"; active := true |}] /\
  currentCategory (app_state (snd (filters_click ascii_toLowerCase (Some 2%nat) sample_ui)))
  = js "Dessert".
Proof.
  destruct (X13_one_active_button ascii_toLowerCase 2%nat
              {| data_category := js "Dessert"; active := false |} sample_ui eq_refl)
    as (H1 & _ & _ & H4 & _).
  split; [exact H1 | exact H4].
Defined.

Lemma X14_witness :
  loadRecipes offline_page (sample_state (js "all") [] [])
  = (Throw TypeError,
     set_requests [js "./recipes.json"] (sample_state (js "all") [] [])).
Proof.
  apply (proj1 (X14_load_failure_keeps_catalog offline_page
                  (sample_state (js "all") [] []))).
  - vm_compute. discriminate.
  - reflexivity.
Defined.

Lemma X15_witness :
  stats_textContent
    (snd (init ascii_toLowerCase file_page (startup_state file_page [])))
  = js "데이터 로딩 실패" /\
  recipeGrid (snd (init ascii_toLowerCase file_page (startup_state file_page [])))
  = [ErrorParagraph (Error blocked_message)] /\
  listeners (snd (init ascii_toLowerCase file_page (startup_state file_page [])))
  = 0%nat.
Proof.
  destruct (X15_init_catches_everything ascii_toLowerCase file_page
              (startup_state file_page [])) as (_ & Hfail & _).
  destruct (Hfail (Error blocked_message) eq_refl) as (H1 & H2 & H3 & _).
  split; [exact H1|]. split; [exact H2 | exact H3].
Defined.

Lemma X16_witness :
  exists owned,
    initial_ownedIds (Some (js "[2,1,2]")) = Ret owned /\
    owned = first_occurrences [VNum 2 I; VNum 1 I; VNum 2 I] /\
    NoDup owned /\
    (forall v, In v owned <-> In v [VNum 2 I; VNum 1 I; VNum 2 I]) /\
    owned `sublist_of` [VNum 2 I; VNum 1 I; VNum 2 I] /\
    (forall before v after,
       owned = before ++ v :: after ->
       exists p q, [VNum 2 I; VNum 1 I; VNum 2 I] = p ++ v :: q /\ ~ In v p /\
                   (forall w, In w before <-> In w p)).
Proof.
  assert (Hne : js "[2,1,2]" <> []) by (vm_compute; discriminate).
  apply (proj1 (X16_stored_array_is_deduplicated (js "[2,1,2]") Hne)).
  vm_compute. reflexivity.
Defined.

Lemma X17_witness :
  script ascii_toLowerCase fresh_page
  = Ret {| allRecipes := [fish; cake];
           currentCategory := js "all";
           searchText := [];
           ownedIds := [];
           localStorage := storage fresh_page;
           stats_textContent := stats_line (length [fish; cake]) (ownedCount [] [fish; cake]);
           recipeGrid := List.map (fun r => CardNode (render_card [] r)) [fish; cake];
           requests := [js "./recipes.json"];
           listeners := 1 |}.
Proof.
  apply (X17_startup_shows_catalog ascii_toLowerCase fresh_page
           {| ok := true; body := Some [fish; cake] |}).
  - reflexivity.
  - vm_compute. discriminate.
  - reflexivity.
  - reflexivity.
  - reflexivity.
  - vm_compute. reflexivity.
Defined.

Lemma twin_checked_reachable : reachable ascii_toLowerCase twin_page twin_checked.
Proof. apply reachable_event. exact twin_loaded_reachable. Defined.

Lemma X18_witness :
  localStorage twin_checked !! js "theme" = storage twin_page !! js "theme".
Proof.
  apply (X18_only_the_ownership_key_is_written ascii_toLowerCase twin_page
           twin_checked twin_checked_reachable).
  vm_compute. discriminate.
Defined.

Lemma X19_witness :
  allRecipes twin_checked = allRecipes twin_loaded /\
  requests twin_checked = requests twin_loaded /\
  listeners twin_checked = listeners twin_loaded /\
  (length (requests twin_checked) <= 1)%nat /\
  (listeners twin_checked <= 1)%nat.
Proof.
  apply (X19_catalog_fixed_after_startup ascii_toLowerCase twin_page).
  - vm_compute. reflexivity.
  - exact twin_checked_reachable.
Defined.

Lemma twin_checked_NoDup : NoDup (ownedIds twin_checked).
Proof. apply (bool_decide_unpack _). vm_compute. exact I. Defined.

Lemma X20_witness :
  exists st',
    script ascii_toLowerCase (reloaded twin_page twin_checked) = Ret st' /\
    ownedIds st' = ownedIds twin_checked /\
    localStorage st' = localStorage twin_checked /\
    checkboxes_consistent st'.
Proof.
  apply X20_reload_restores_ownership.
  - exact twin_checked_NoDup.
  - vm_compute. intros [H | []]. discriminate H.
  - vm_compute. reflexivity.
Defined.
